(** * Agent tool-calling loop with span instrumentation

    A shallow embedding of the three observability samples:

    - [lab/5-Observability/1-OpenAIAgents/weekend_planner.py]  (module [OpenAIAgents])
    - [lab/5-Observability/2-LangChain/weekend_planner.py]     (module [LangChain])
    - [lab/5-Observability/3-LangGraph/music_router.py]        (module [LangGraph])

    Python text is a [string] (one element per character), a [dict] with
    string keys is a [gmap string _], the process environment is a
    [gmap string string], and a call that may raise returns a [result]. *)

From Stdlib Require Import ZArith QArith Ascii String.
From stdpp Require Import base option list sorting strings pretty gmap.

Local Open Scope string_scope.
Local Open Scope list_scope.

(** ** Python exceptions and fallible calls *)

(** The [Exception] subclasses the samples raise or let through.
    [GraphRecursionError] is the graph runtime's own; [LibraryError] stands
    for what a library call raises on arguments it rejects (such as
    [OpenAIError] or [ValidationError]), by class name and message. *)
Inductive exception :=
| IndexError
| AttributeError (attr : string)
| KeyError (key : string)
| ValueError (msg : string)
| ModelInvocationFailure (detail : string)
| GraphRecursionError
| LibraryError (class message : string).

(** [BaseException]s that are not [Exception]s: an [except Exception]
    clause does not catch them. *)
Inductive signal := KeyboardInterrupt | SystemExit | CancelledError.

Inductive result (A : Type) :=
| Ok (a : A)
| Raise (e : exception).
Arguments Ok {A} a.
Arguments Raise {A} e.

Definition result_bind {A B} (f : A → result B) (r : result A) : result B :=
  match r with
  | Ok a => f a
  | Raise e => Raise e
  end.

#[global] Instance result_mret : MRet result := fun _ a => Ok a.
#[global] Instance result_mbind : MBind result := fun _ _ f r => result_bind f r.

(** ** Python built-ins used by the samples *)

Module Py.

(** [str.lower] on one character: exact on the ASCII range; a character
    outside it is left as it is.  The samples compare the lowered text with
    the words "github", "azure" and "true", and no character outside ASCII
    lowers into a letter of these, so the comparisons come out as in Python
    on every text; the lowered text itself is Python's on ASCII text. *)
Definition lower_char (c : ascii) : ascii :=
  let n := nat_of_ascii c in
  if (65 <=? n)%nat && (n <=? 90)%nat then ascii_of_nat (n + 32) else c.

(** [s.lower()] *)
Fixpoint lower (s : string) : string :=
  match s with
  | EmptyString => EmptyString
  | String c rest => String (lower_char c) (lower rest)
  end.


(** [s.rstrip("/")]: drops every trailing slash. *)
Fixpoint rstrip_slash (s : string) : string :=
  match s with
  | EmptyString => EmptyString
  | String c rest =>
      match rstrip_slash rest with
      | EmptyString => if Ascii.eqb c "/" then EmptyString else String c EmptyString
      | kept => String c kept
      end
  end.

(** [s[:n]] *)
Fixpoint slice_to (n : nat) (s : string) : string :=
  match n, s with
  | O, _ => EmptyString
  | S _, EmptyString => EmptyString
  | S n', String c rest => String c (slice_to n' rest)
  end.

(** [bool(l)] for a list: true iff it has an element. *)
Definition truthy {A} (l : list A) : bool :=
  match l with
  | [] => false
  | _ :: _ => true
  end.

(** [os.getenv(key, default)] and [os.environ.get(key)] *)
Definition getenv (env : gmap string string) (key default : string) : string :=
  match env !! key with
  | Some v => v
  | None => default
  end.

Definition environ_get (env : gmap string string) (key : string) : option string :=
  env !! key.

(** [os.environ[key]] *)
Definition environ_item (env : gmap string string) (key : string) : result string :=
  match env !! key with
  | Some v => Ok v
  | None => Raise (KeyError key)
  end.

(** [os.environ.setdefault(key, value)]: sets a key only when it is unset. *)
Definition setdefault (key value : string) (env : gmap string string)
  : gmap string string :=
  match env !! key with
  | Some _ => env
  | None => <[key := value]> env
  end.

(** [s.endswith("/")] *)
Fixpoint endswith_slash (s : string) : bool :=
  match s with
  | EmptyString => false
  | String c EmptyString => Ascii.eqb c "/"
  | String _ rest => endswith_slash rest
  end.

(** ["/" * n] *)
Fixpoint slashes (n : nat) : string :=
  match n with
  | O => EmptyString
  | S n' => String "/" (slashes n')
  end.

(** [str(n)] for a natural number. *)
Definition str_nat (n : nat) : string := pretty n.

End Py.

(** ** music_router.py *)

Module LangGraph.

(** *** Messages (langchain_core.messages, as far as the sample reads them) *)

Record ToolCall := {
  call_id : string;
  tool_name : string;
  arguments : gmap string string
}.

Inductive tool_status := success | error.

(** A message and its [id].  A message built without one has [id = None];
    the reducer of the [messages] channel then gives it a fresh [uuid4],
    which no other message carries, so here it stays [None]. *)
Inductive Message :=
| HumanMessage (id : option string) (content : string)
| AIMessage (id : option string) (content : string) (tool_calls : list ToolCall)
| ToolMessage (id : option string) (content : string) (name : string)
              (tool_call_id : string) (status : tool_status).

Definition content_of (m : Message) : string :=
  match m with
  | HumanMessage _ c => c
  | AIMessage _ c _ => c
  | ToolMessage _ c _ _ _ => c
  end.

Definition message_id (m : Message) : option string :=
  match m with
  | HumanMessage id _ => id
  | AIMessage id _ _ => id
  | ToolMessage id _ _ _ _ => id
  end.

(** [MessagesState]: the one channel ["messages"]. *)
Record MessagesState := { messages : list Message }.

(** [messages[-1]] *)
Definition last_message (ms : list Message) : result Message :=
  match last ms with
  | Some m => Ok m
  | None => Raise IndexError
  end.

(** [message.tool_calls]: only an [AIMessage] has the attribute. *)
Definition tool_calls_of (m : Message) : result (list ToolCall) :=
  match m with
  | AIMessage _ _ tcs => Ok tcs
  | _ => Raise (AttributeError "tool_calls")
  end.

(** [should_continue]; [not tool_calls] is the emptiness test. *)
Definition should_continue (state : MessagesState) : result string :=
  last_message ← last_message (messages state);
  tool_calls ← tool_calls_of last_message;
  mret (if negb (Py.truthy tool_calls) then "end" else "continue").

(** *** Tools *)

Definition play_song_on_spotify (song : string) : string :=
  "Successfully played " +:+ song +:+ " on Spotify!".

Definition play_song_on_apple (song : string) : string :=
  "Successfully played " +:+ song +:+ " on Apple Music!".

(** The tools handed to [ToolNode], by name. *)
Definition tools_by_name : list (string * (string → string)) :=
  [("play_song_on_spotify", play_song_on_spotify);
   ("play_song_on_apple", play_song_on_apple)].

Fixpoint assoc {V} (key : string) (table : list (string * V)) : option V :=
  match table with
  | [] => None
  | (k, v) :: rest => if String.eqb k key then Some v else assoc key rest
  end.

(** Modelled from the spec: the dispatch inside [ToolNode] is library code
    that the sample only instantiates.  Following §4.2 and §4.3, one
    request yields one [tool] message that carries the request's
    [call_id]; an unregistered name and a call the tool rejects (here: no
    [song] argument) become results with the failure marker [error]
    instead of propagating. *)
Definition execute (call : ToolCall) : Message :=
  match assoc (tool_name call) tools_by_name with
  | None => ToolMessage None "UnknownTool" (tool_name call) (call_id call) error
  | Some tool =>
      match arguments call !! "song" with
      | Some song => ToolMessage None (tool song) (tool_name call) (call_id call) success
      | None =>
          ToolMessage None "ToolExecutionFailure" (tool_name call) (call_id call) error
      end
  end.

(** [TOOL_NODE]: runs the calls of the last message, in the order they
    appear in [tool_calls], and returns the update [{"messages": [...]}]. *)
Definition TOOL_NODE (state : MessagesState) : result (list Message) :=
  last_message ← last_message (messages state);
  tool_calls ← tool_calls_of last_message;
  mret (map execute tool_calls).

(** *** The model capability *)

(** What one [MODEL.invoke] gives back: an assistant message, with the id
    the backend gave it, or a failure.  The backend is opaque; a run sees
    the sequence of its replies. *)
Inductive model_reply :=
| Reply (id : option string) (content : string) (tool_calls : list ToolCall)
| Failure (e : exception).

Definition MODEL_invoke (reply : model_reply) (history : list Message) : result Message :=
  match reply with
  | Reply id content tool_calls => Ok (AIMessage id content tool_calls)
  | Failure e => Raise e
  end.

(** [call_model]; [reply] is what the backend answers to this call. *)
Definition call_model (reply : model_reply) (state : MessagesState) : result (list Message) :=
  response ← MODEL_invoke reply (messages state);
  mret [response].

(** *** The graph *)

Inductive node := START | agent | action | END.

#[global] Instance node_eq_dec : EqDecision node.
Proof. solve_decision. Defined.

(** The position of the last message that carries [id]. *)
Fixpoint last_index (id : string) (ms : list Message) : option nat :=
  match ms with
  | [] => None
  | m :: rest =>
      match last_index id rest with
      | Some k => Some (S k)
      | None => if decide (message_id m = Some id) then Some 0 else None
      end
  end.

(** How the reducer takes in one message: a message whose id is already in
    the thread replaces the message that carries it, in place; any other is
    added at the end. *)
Definition merge (merged : list Message) (m : Message) : list Message :=
  match message_id m with
  | Some id =>
      match last_index id merged with
      | Some k => <[k := m]> merged
      | None => merged ++ [m]
      end
  | None => merged ++ [m]
  end.

(** The reducer of the [messages] channel of [MessagesState], applied to a
    node's update (the samples never return a [RemoveMessage]). *)
Definition add_messages (state : MessagesState) (update : list Message) : MessagesState :=
  {| messages := foldl merge (messages state) update |}.

(** The path map of [add_conditional_edges]. *)
Definition path_map : list (string * node) :=
  [("continue", action); ("end", END)].

(** The conditional edge out of [agent]. *)
Definition route (state : MessagesState) : result node :=
  label ← should_continue state;
  match assoc label path_map with
  | Some target => Ok target
  | None => Raise (KeyError label)
  end.

(** A run in progress: the node to execute next, the state, the replies
    the backend has yet to give, and the nodes executed so far. *)
Record config := {
  at_node : node;
  state : MessagesState;
  backend : list model_reply;
  executed : list node
}.

Inductive step_result :=
| Next (c : config)
| Done
| Await
| Fail (e : exception).

(** One super-step of [WORKFLOW]: the edges [START -> agent],
    [agent -> should_continue -> action | END] and [action -> agent]. *)
Definition step (c : config) : step_result :=
  match at_node c with
  | START =>
      Next {| at_node := agent; state := state c;
              backend := backend c; executed := executed c |}
  | agent =>
      match backend c with
      | [] => Await
      | reply :: rest =>
          match call_model reply (state c) with
          | Raise e => Fail e
          | Ok update =>
              let state' := add_messages (state c) update in
              match route state' with
              | Raise e => Fail e
              | Ok target =>
                  Next {| at_node := target; state := state';
                          backend := rest; executed := executed c ++ [agent] |}
              end
          end
      end
  | action =>
      match TOOL_NODE (state c) with
      | Raise e => Fail e
      | Ok update =>
          Next {| at_node := agent; state := add_messages (state c) update;
                  backend := backend c; executed := executed c ++ [action] |}
      end
  | END => Done
  end.

Inductive outcome :=
| Finished (c : config)
| Failed (e : exception) (c : config)
| Suspended (c : config)
| OutOfFuel (c : config).

Definition outcome_config (o : outcome) : config :=
  match o with
  | Finished c | Failed _ c | Suspended c | OutOfFuel c => c
  end.

(** At most [fuel] super-steps of the graph: steps until [END], a failure,
    a model call that has no reply yet, or the end of [fuel].  What the
    runtime makes of the last case is in [APP_stream]. *)
Fixpoint run (fuel : nat) (c : config) : outcome :=
  match fuel with
  | O => OutOfFuel c
  | S fuel' =>
      match step c with
      | Next c' => run fuel' c'
      | Done => Finished c
      | Await => Suspended c
      | Fail e => Failed e c
      end
  end.

(** The run [main] starts: the input joins the thread's history. *)
Definition entry (history : list Message) (replies : list model_reply) : config :=
  {| at_node := START; state := {| messages := history |};
     backend := replies; executed := [] |}.

(** The text a finished run shows last: [messages[-1]] of the final state. *)
Definition final_answer (state : MessagesState) : result string :=
  last_message ← last_message (messages state);
  mret (content_of last_message).

Definition input_message : Message :=
  HumanMessage None "Can you play Taylor Swift's most popular song?".

(** What [main] passes as [config], as far as the run depends on it. *)
Record RunnableConfig := {
  thread_id : string;
  recursion_limit : option nat
}.

(** [config] of [main]: a thread id and no recursion limit. *)
Definition main_config : RunnableConfig :=
  {| thread_id := "1"; recursion_limit := None |}.

(** The limit in force: the one the config gives, or else the default of
    the library. *)
Definition limit_of (library_default : nat) (config : RunnableConfig) : nat :=
  default library_default (recursion_limit config).

(** [APP.stream(input, config)] on a thread whose history, the input
    included, is [history].  The runtime spends one step of its own on the
    input and then runs the nodes of the graph, one per super-step; when
    [limit] of them have run, the run fails with [GraphRecursionError], also
    when the last of them led to [END].  So a run ends well only if it needs
    fewer than [limit] nodes. *)
Definition APP_stream (limit : nat) (history : list Message)
    (replies : list model_reply) : outcome :=
  match run (S limit) (entry history replies) with
  | OutOfFuel c => Failed GraphRecursionError c
  | o => o
  end.

(** The run of [main]. *)
Definition main (library_default : nat) (replies : list model_reply) : outcome :=
  APP_stream (limit_of library_default main_config) [input_message] replies.

(** *** Parallel tool execution *)

(** Modelled from the spec: the sample binds its model with
    [parallel_tool_calls=False] and leaves how [ToolNode] schedules several
    calls to the library.  Following §4.2 and §5, the calls of one round
    finish in some completion order, each result is kept under the position
    of its request, and the feedback is read off by position. *)
Definition complete (calls : list ToolCall) (pool : gmap nat Message) (i : nat)
  : gmap nat Message :=
  match calls !! i with
  | Some call => <[i := execute call]> pool
  | None => pool
  end.

Definition completed (calls : list ToolCall) (completion_order : list nat)
  : gmap nat Message :=
  foldl (complete calls) ∅ completion_order.

Definition feedback (calls : list ToolCall) (completion_order : list nat)
  : list Message :=
  omap (λ i, completed calls completion_order !! i) (seq 0 (length calls)).

Definition TOOL_NODE_parallel (completion_order : list nat) (state : MessagesState)
  : result (list Message) :=
  last_message ← last_message (messages state);
  tool_calls ← tool_calls_of last_message;
  mret (feedback tool_calls completion_order).

(** *** Building the model *)

Inductive token_provider := bearer_token_provider (scope : string).

Inductive chat_model :=
| AzureChatOpenAI (azure_endpoint azure_deployment openai_api_version : option string)
                  (azure_ad_token_provider : token_provider)
| ChatOpenAI (model base_url : string) (api_key : option string).

(** The validation the library's model classes run on their arguments
    when an instance is built: [None] when they accept them, the exception
    they raise otherwise (for instance on a missing credential or API
    version).  It may consult the environment. *)
Definition validation := gmap string string → chat_model → option exception.

(** A call of a model class: the instance with these arguments, if the
    class accepts them. *)
Definition construct (validate : validation) (env : gmap string string)
    (instance : chat_model) : result chat_model :=
  match validate env instance with
  | Some e => Raise e
  | None => Ok instance
  end.

(** [_build_model]; [validate] is the library's part of the two calls. *)
Definition _build_model (validate : validation) (env : gmap string string)
  : result chat_model :=
  let host := Py.lower (Py.getenv env "API_HOST" "github") in
  if String.eqb host "azure" then
    let token_provider :=
      bearer_token_provider "https://cognitiveservices.azure.com/.default" in
    construct validate env
      (AzureChatOpenAI (Py.environ_get env "AZURE_OPENAI_ENDPOINT")
                       (Py.environ_get env "AZURE_OPENAI_CHAT_DEPLOYMENT")
                       (Py.environ_get env "AZURE_OPENAI_VERSION")
                       token_provider)
  else if String.eqb host "github" then
    construct validate env
      (ChatOpenAI (Py.getenv env "GITHUB_MODEL" "gpt-4o")
                  (Py.getenv env "GITHUB_OPENAI_BASE_URL"
                             "https://models.inference.ai.azure.com")
                  (Py.environ_get env "GITHUB_TOKEN"))
  else Raise (ValueError "API_HOST must be 'github' or 'azure'").

(** The script: [MODEL] is built when the module loads, [main] streams the
    graph on [input_message]. *)
Inductive script_result :=
| LoadFailed (e : exception)
| Ran (o : outcome).

Definition script (validate : validation) (library_default : nat)
    (env : gmap string string) (replies : list model_reply) : script_result :=
  match _build_model validate env with
  | Raise e => LoadFailed e
  | Ok _ => Ran (main library_default replies)
  end.

(** *** The tracer *)

(** The arguments [AzureAIOpenTelemetryTracer] is built with. *)
Record tracer := {
  connection_string : option string;
  enable_content_recording : bool;
  tracer_name : string
}.

(** [TRACER] *)
Definition TRACER (env : gmap string string) : tracer :=
  {| connection_string := Py.environ_get env "APPLICATION_INSIGHTS_CONNECTION_STRING";
     enable_content_recording :=
       String.eqb (Py.lower (Py.getenv env "OTEL_RECORD_CONTENT" "true")) "true";
     tracer_name := "Music Player Agent" |}.

(** How often a node occurs among the executed ones. *)
Definition visits (n : node) (nodes : list node) : nat :=
  length (filter (λ m, m = n) nodes).


(** *** Vocabulary for statements about runs *)

(** A tool-call round: the id, the content and the [tool_calls] of the
    reply. *)
Definition reply_of (round : option string * string * list ToolCall) : model_reply :=
  Reply round.1.1 round.1.2 round.2.

(** What one round adds to the history: the assistant message, then one
    tool message per call. *)
Definition round_messages (round : option string * string * list ToolCall)
  : list Message :=
  AIMessage round.1.1 round.1.2 round.2 :: map execute round.2.

Definition transcript (rounds : list (option string * string * list ToolCall))
  : list Message :=
  concat (map round_messages rounds).

(** The ids in a thread, and the id of a reply to come. *)
Definition thread_ids (ms : list Message) : list string := omap message_id ms.

Definition reply_id (reply : model_reply) : option string :=
  match reply with
  | Reply id _ _ => id
  | Failure _ => None
  end.

(** The replies bring ids that are new: no two of them the same id, none an
    id that is in the thread. *)
Definition fresh_ids (history : list Message) (replies : list model_reply) : Prop :=
  NoDup (omap reply_id replies) ∧
  Forall (λ id, id ∉ thread_ids history) (omap reply_id replies).

#[global] Instance fresh_ids_dec history replies : Decision (fresh_ids history replies).
Proof. unfold fresh_ids. apply _. Defined.

(** The nodes [n] rounds execute. *)
Definition round_trip (n : nat) : list node :=
  concat (replicate n [agent; action]).

(** The request a tool message answers. *)
Definition answered_call (m : Message) : option string :=
  match m with
  | ToolMessage _ _ _ call _ => Some call
  | _ => None
  end.

Definition spotify_call (id song : string) : ToolCall :=
  {| call_id := id; tool_name := "play_song_on_spotify";
     arguments := {["song" := song]} |}.

Definition apple_call (id song : string) : ToolCall :=
  {| call_id := id; tool_name := "play_song_on_apple";
     arguments := {["song" := song]} |}.

(** What holds of every configuration a run from [entry] passes through:
    the executed nodes alternate, and [action] and [END] are only entered
    behind an assistant message with, respectively without, tool calls. *)
Definition coherent (c : config) : Prop :=
  match at_node c with
  | START | agent => ∃ k, executed c = round_trip k
  | action =>
      (∃ k, executed c = round_trip k ++ [agent]) ∧
      ∃ id content call calls,
        last (messages (state c)) = Some (AIMessage id content (call :: calls))
  | END =>
      (∃ k, executed c = round_trip k ++ [agent]) ∧
      ∃ id content, last (messages (state c)) = Some (AIMessage id content [])
  end.

End LangGraph.

(** ** The Message Store *)

Module MessageStore.

Import LangGraph.

Inductive store_error := UnknownThread | NotFound.

Inductive answer (A : Type) :=
| Answer (a : A)
| Reject (e : store_error).
Arguments Answer {A} a.
Arguments Reject {A} e.

Record ConversationState := {
  thread_id : string;
  history : list Message
}.

(** Modelled from the spec: [MemorySaver] is library code and the sample
    only hands it to [WORKFLOW.compile]; the sample neither defines nor
    calls a [checkpoint] or a [restore].  Following §4.1 and §9, the store keeps one ordered sequence
    per thread, [checkpoint] files a snapshot (the Message sequence plus
    the [thread_id], nothing more) under a fresh opaque token, and
    [restore] recreates the thread from the snapshot. *)
Record Store := {
  threads : gmap string (list Message);
  snapshots : gmap nat ConversationState;
  next_token : nat;
  require_registration : bool
}.

Definition append (thread : string) (message : Message) (s : Store) : answer Store :=
  match threads s !! thread with
  | Some sequence =>
      Answer {| threads := <[thread := sequence ++ [message]]> (threads s);
                snapshots := snapshots s; next_token := next_token s;
                require_registration := require_registration s |}
  | None =>
      if require_registration s then Reject UnknownThread
      else Answer {| threads := <[thread := [message]]> (threads s);
                     snapshots := snapshots s; next_token := next_token s;
                     require_registration := require_registration s |}
  end.

Definition load (thread : string) (s : Store) : answer (list Message) :=
  match threads s !! thread with
  | Some sequence => Answer sequence
  | None => Reject NotFound
  end.

Definition checkpoint (thread : string) (s : Store) : answer (nat * Store) :=
  match threads s !! thread with
  | Some sequence =>
      let token := next_token s in
      Answer (token,
              {| threads := threads s;
                 snapshots := <[token := {| thread_id := thread; history := sequence |}]>
                                (snapshots s);
                 next_token := S token;
                 require_registration := require_registration s |})
  | None => Reject NotFound
  end.

Definition restore (token : nat) (s : Store) : answer (ConversationState * Store) :=
  match snapshots s !! token with
  | Some snapshot =>
      Answer (snapshot,
              {| threads := <[thread_id snapshot := history snapshot]> (threads s);
                 snapshots := snapshots s; next_token := next_token s;
                 require_registration := require_registration s |})
  | None => Reject NotFound
  end.

(** What a caller may do to the store between a checkpoint and its restore. *)
Inductive operation :=
| Append (thread : string) (message : Message)
| Load (thread : string)
| Checkpoint (thread : string)
| Restore (token : nat).

(** A rejected operation leaves the store as it was. *)
Definition perform (s : Store) (o : operation) : Store :=
  match o with
  | Append thread message =>
      match append thread message s with Answer s' => s' | Reject _ => s end
  | Load _ => s
  | Checkpoint thread =>
      match checkpoint thread s with Answer (_, s') => s' | Reject _ => s end
  | Restore token =>
      match restore token s with Answer (_, s') => s' | Reject _ => s end
  end.

End MessageStore.

(** ** 1-OpenAIAgents/weekend_planner.py *)

Module OpenAIAgents.

(** *** Configuration *)

Inductive token_provider := bearer_token_provider (scope : string).

Inductive client :=
| AsyncOpenAI (base_url api_key : string)
| AsyncAzureOpenAI (api_version azure_endpoint : string)
                   (azure_ad_token_provider : token_provider).

Record _ApiConfig := {
  build_client : unit → client;
  model_name : string;
  base_url : string;
  provider : string
}.

(** What [_set_capture_env] reads of [urlparse(base_url)].  Reading
    [port] raises [ValueError] when the URL's port is not a number in
    range. *)
Record ParseResult := {
  hostname : option string;
  port : result (option nat)
}.

(** The dict [capture_defaults], in the order of its keys. *)
Definition capture_defaults (env : gmap string string) (provider : string)
  : list (string * string) :=
  [("OTEL_INSTRUMENTATION_OPENAI_AGENTS_CAPTURE_CONTENT", "true");
   ("OTEL_INSTRUMENTATION_OPENAI_AGENTS_CAPTURE_METRICS", "true");
   ("OTEL_GENAI_CAPTURE_MESSAGES", "true");
   ("OTEL_GENAI_CAPTURE_SYSTEM_INSTRUCTIONS", "true");
   ("OTEL_GENAI_CAPTURE_TOOL_DEFINITIONS", "true");
   ("OTEL_GENAI_EMIT_OPERATION_DETAILS", "true");
   ("OTEL_GENAI_AGENT_NAME",
    Py.getenv env "OTEL_GENAI_AGENT_NAME" "Weekend Planner Agent");
   ("OTEL_GENAI_AGENT_DESCRIPTION",
    Py.getenv env "OTEL_GENAI_AGENT_DESCRIPTION"
      "Assistant that plans weekend activities using weather and events data");
   ("OTEL_GENAI_AGENT_ID", Py.getenv env "OTEL_GENAI_AGENT_ID" "weekend-planner");
   ("OTEL_GENAI_PROVIDER_NAME", provider)].

(** [_set_capture_env]; [urlparse] is the library's parser, which may raise
    on a malformed URL, and the result is the environment the call leaves
    behind, whether it returns or raises: what was set before [urlparse] or
    [port] raised stays set. *)
Definition _set_capture_env (urlparse : string → result ParseResult)
    (provider base_url : string) (env : gmap string string) : gmap string string :=
  let env :=
    foldl (λ env item, Py.setdefault item.1 item.2 env) env
          (capture_defaults env provider) in
  match urlparse base_url with
  | Raise _ => env
  | Ok parsed =>
      let env :=
        match hostname parsed with
        | Some (String c rest) =>
            Py.setdefault "OTEL_GENAI_SERVER_ADDRESS" (String c rest) env
        | Some EmptyString | None => env
        end in
      match port parsed with
      | Ok (Some (S n)) =>
          Py.setdefault "OTEL_GENAI_SERVER_PORT" (Py.str_nat (S n)) env
      | Ok (Some O) | Ok None | Raise _ => env
      end
  end.

(** What [_set_capture_env] raises, if it does: the exception of
    [urlparse], or the one of reading [port]. *)
Definition _set_capture_env_raises (urlparse : string → result ParseResult)
    (base_url : string) : option exception :=
  match urlparse base_url with
  | Raise e => Some e
  | Ok parsed =>
      match port parsed with
      | Raise e => Some e
      | Ok _ => None
      end
  end.

(** The two settings [_set_capture_env] derives from the parsed URL: a
    host name that is not empty, a port that is not zero. *)
Definition server_defaults (parsed : result ParseResult) : list (string * string) :=
  match parsed with
  | Raise _ => []
  | Ok parsed =>
      match hostname parsed with
      | Some (String c rest) => [("OTEL_GENAI_SERVER_ADDRESS", String c rest)]
      | Some EmptyString | None => []
      end ++
      match port parsed with
      | Ok (Some (S n)) => [("OTEL_GENAI_SERVER_PORT", Py.str_nat (S n))]
      | Ok (Some O) | Ok None | Raise _ => []
      end
  end.

(** [_resolve_api_config] *)
Definition _resolve_api_config (env : gmap string string) : result _ApiConfig :=
  let host := Py.lower (Py.getenv env "API_HOST" "github") in
  if String.eqb host "github" then
    let base_url :=
      Py.rstrip_slash (Py.getenv env "GITHUB_OPENAI_BASE_URL"
                                 "https://models.inference.ai.azure.com") in
    let model_name := Py.getenv env "GITHUB_MODEL" "gpt-4o" in
    api_key ← Py.environ_item env "GITHUB_TOKEN";
    mret {| build_client := λ _, AsyncOpenAI base_url api_key;
            model_name := model_name;
            base_url := base_url;
            provider := "azure.ai.inference" |}
  else if String.eqb host "azure" then
    endpoint ← Py.environ_item env "AZURE_OPENAI_ENDPOINT";
    let endpoint := Py.rstrip_slash endpoint in
    api_version ← Py.environ_item env "AZURE_OPENAI_VERSION";
    deployment ← Py.environ_item env "AZURE_OPENAI_CHAT_DEPLOYMENT";
    let token_provider :=
      bearer_token_provider "https://cognitiveservices.azure.com/.default" in
    mret {| build_client := λ _, AsyncAzureOpenAI api_version endpoint token_provider;
            model_name := deployment;
            base_url := endpoint;
            provider := "azure.ai.openai" |}
  else
    Raise (ValueError ("Unsupported API_HOST '" +:+ host
                       +:+ "'. Expected 'github' or 'azure'.")).

(** *** The tracer provider *)

Inductive exporter :=
| AzureMonitorTraceExporter (connection_string : string)
| ConsoleSpanExporter.

(** The provider [_configure_tracer] installs: the resource it is created
    with and the exporters behind its batch span processors. *)
Record TracerProvider := {
  resource : gmap string string;
  span_processors : list exporter
}.

(** [_configure_tracer]; [azure_monitor] tells whether the optional import
    of [AzureMonitorTraceExporter] succeeded, and [rejects] is the library's
    check in [from_connection_string]: the exception it raises on a string
    it cannot parse.  Returns the provider set and the lines printed; when
    the exporter cannot be built, no provider is set and nothing printed. *)
Definition _configure_tracer (rejects : string → option exception)
    (azure_monitor : bool) (env : gmap string string)
  : result (TracerProvider * list string) :=
  let resource : gmap string string :=
    <["service.name" := "weekend-planner-service"]>
      (<["service.namespace" := "ignite25"]>
         {["service.version" := Py.getenv env "SERVICE_VERSION" "1.0.0"]}) in
  let connection_string := Py.environ_get env "APPLICATION_INSIGHTS_CONNECTION_STRING" in
  match connection_string, azure_monitor with
  | Some (String c rest), true =>
      match rejects (String c rest) with
      | Some e => Raise e
      | None =>
          Ok ({| resource := resource;
                 span_processors := [AzureMonitorTraceExporter (String c rest)] |},
              ["[otel] Azure Monitor trace exporter configured"])
      end
  | Some (String _ _), false =>
      Ok ({| resource := resource; span_processors := [ConsoleSpanExporter] |},
          ["[otel] Azure Monitor exporter unavailable. Install azure-monitor-opentelemetry-exporter"])
  | Some EmptyString, _ | None, _ =>
      Ok ({| resource := resource; span_processors := [ConsoleSpanExporter] |},
          ["[otel] Console span exporter configured"])
  end.

(** *** Tools *)

Inductive value := Int (z : Z) | Str (s : string).

(** The float [0.05]: the double nearest to one twentieth. *)
Definition threshold : Q := 3602879701896397 # 72057594037927936.

(** [get_weather]; [draw] is the value of [random.random()]. *)
Definition get_weather (city : string) (draw : Q) : gmap string value :=
  if negb (Qle_bool threshold draw) then
    <["city" := Str city]> (<["temperature" := Int 72]> {["description" := Str "Sunny"]})
  else
    <["city" := Str city]> (<["temperature" := Int 60]> {["description" := Str "Rainy"]}).

(** [get_activities] *)
Definition get_activities (city date : string) : list (gmap string value) :=
  [ <["name" := Str "Hiking"]> {["location" := Str city]};
    <["name" := Str "Beach"]> {["location" := Str city]};
    <["name" := Str "Museum"]> {["location" := Str city]} ].

(** *** Spans *)

Inductive attr_value := AttrStr (s : string) | AttrBool (b : bool).

(** The status of a span: unset, or error with the exception it is set on. *)
Inductive span_status := Unset | Error (exc : exception).

(** A span as the tracer keeps it; [exceptions] are the exception events,
    one per recording, and [end_calls] counts the calls of [end]. *)
Record Span := {
  span_name : string;
  attributes : gmap string attr_value;
  exceptions : list exception;
  status : span_status;
  end_calls : nat
}.

Definition start_span (name : string) : Span :=
  {| span_name := name; attributes := ∅; exceptions := [];
     status := Unset; end_calls := 0 |}.

Definition is_recording (span : Span) : bool := Nat.eqb (end_calls span) 0.

(** [span.set_attribute(key, value)]: the last write of a key wins; an
    ended span takes no more attributes. *)
Definition set_attribute (key : string) (v : attr_value) (span : Span) : Span :=
  if is_recording span then
    {| span_name := span_name span; attributes := <[key := v]> (attributes span);
       exceptions := exceptions span; status := status span;
       end_calls := end_calls span |}
  else span.

(** [span.record_exception(exc)] *)
Definition record_exception (exc : exception) (span : Span) : Span :=
  if is_recording span then
    {| span_name := span_name span; attributes := attributes span;
       exceptions := exceptions span ++ [exc]; status := status span;
       end_calls := end_calls span |}
  else span.

(** [span.set_status(Status(StatusCode.ERROR, ...))] *)
Definition set_status_error (exc : exception) (span : Span) : Span :=
  if is_recording span then
    {| span_name := span_name span; attributes := attributes span;
       exceptions := exceptions span; status := Error exc;
       end_calls := end_calls span |}
  else span.

(** [span.end()] *)
Definition span_end (span : Span) : Span :=
  {| span_name := span_name span; attributes := attributes span;
     exceptions := exceptions span; status := status span;
     end_calls := S (end_calls span) |}.

(** *** The session *)

Definition AGENT_name : string := "Weekend Planner".

Definition _root_span_name (provider : string) : string :=
  "weekend_planning_session[" +:+ provider +:+ "]".

Definition user_request : string := "Hi, what can I do this weekend in Seattle?".

(** What leaves a call: an [Exception], or a [BaseException] that is none. *)
Inductive raised := Exc (e : exception) | BaseExc (s : signal).

(** What [await Runner.run(AGENT, input=user_request)] does. *)
Inductive runner_outcome :=
| RunResult (final_output : option string)
| RunRaises (r : raised).

(** [result.final_output or ""] *)
Definition or_empty (final_output : option string) : string :=
  match final_output with
  | Some (String c rest) => String c rest
  | Some EmptyString | None => EmptyString
  end.

(** Leaving the [with] block of [start_as_current_span]: an [Exception]
    on its way out is recorded on the span and sets its status to error;
    in every case the span is ended. *)
Definition leave_span (leaving : option raised) (span : Span) : Span :=
  match leaving with
  | Some (Exc exc) => span_end (set_status_error exc (record_exception exc span))
  | Some (BaseExc _) | None => span_end span
  end.

Record main_result := {
  root_span : Span;
  stdout : list string;
  propagated : option raised
}.

(** [main]; [runner] is the outcome of the one [Runner.run] it awaits. *)
Definition main (API_CONFIG : _ApiConfig) (runner : runner_outcome) : main_result :=
  let span := start_span (_root_span_name (provider API_CONFIG)) in
  let span := set_attribute "user.request" (AttrStr user_request) span in
  let span := set_attribute "gen_ai.provider.name" (AttrStr (provider API_CONFIG)) span in
  let span := set_attribute "gen_ai.request.model" (AttrStr (model_name API_CONFIG)) span in
  let span := set_attribute "agent.name" (AttrStr AGENT_name) span in
  let span := set_attribute "target.city" (AttrStr "Seattle") span in
  match runner with
  | RunResult final_output =>
      let output := or_empty final_output in
      let span := set_attribute "agent.response" (AttrStr (Py.slice_to 500 output)) span in
      let span := set_attribute "request.success" (AttrBool true) span in
      {| root_span := leave_span None span; stdout := [output]; propagated := None |}
  | RunRaises (Exc exc) =>
      let span := record_exception exc span in
      let span := set_attribute "request.success" (AttrBool false) span in
      {| root_span := leave_span (Some (Exc exc)) span; stdout := [];
         propagated := Some (Exc exc) |}
  | RunRaises (BaseExc s) =>
      {| root_span := leave_span (Some (BaseExc s)) span; stdout := [];
         propagated := Some (BaseExc s) |}
  end.

(** The script: when the module loads, [API_CONFIG] is resolved, the
    capture settings are written and the tracer is configured, in this
    order; [main] runs afterwards and makes the only model-backed call. *)
Inductive script_result :=
| LoadFailed (e : exception)
| Ran (r : main_result).

Definition script (urlparse : string → result ParseResult)
    (rejects : string → option exception) (azure_monitor : bool)
    (env : gmap string string) (runner : runner_outcome) : script_result :=
  match _resolve_api_config env with
  | Raise e => LoadFailed e
  | Ok API_CONFIG =>
      match _set_capture_env_raises urlparse (base_url API_CONFIG) with
      | Some e => LoadFailed e
      | None =>
          let env :=
            _set_capture_env urlparse (provider API_CONFIG) (base_url API_CONFIG) env in
          match _configure_tracer rejects azure_monitor env with
          | Raise e => LoadFailed e
          | Ok _ => Ran (main API_CONFIG runner)
          end
      end
  end.


End OpenAIAgents.

(** ** 2-LangChain/weekend_planner.py *)

Module LangChain.

(** [_build_model]: the same text as in music_router.py. *)
Definition _build_model (validate : LangGraph.validation) (env : gmap string string)
  : result LangGraph.chat_model :=
  LangGraph._build_model validate env.

(** [get_weather]; [draw] is the value of [random.random()]. *)
Definition get_weather (city date : string) (draw : Q)
  : gmap string OpenAIAgents.value :=
  if negb (Qle_bool OpenAIAgents.threshold draw) then
    <["temperature" := OpenAIAgents.Int 72]> {["description" := OpenAIAgents.Str "Sunny"]}
  else
    <["temperature" := OpenAIAgents.Int 60]> {["description" := OpenAIAgents.Str "Rainy"]}.

(** [get_activities] *)
Definition get_activities (city date : string) : list (gmap string OpenAIAgents.value) :=
  [ <["name" := OpenAIAgents.Str "Hiking"]> {["location" := OpenAIAgents.Str city]};
    <["name" := OpenAIAgents.Str "Beach"]> {["location" := OpenAIAgents.Str city]};
    <["name" := OpenAIAgents.Str "Museum"]> {["location" := OpenAIAgents.Str city]} ].

(** [TRACER] *)
Definition TRACER (env : gmap string string) : LangGraph.tracer :=
  {| LangGraph.connection_string :=
       Py.environ_get env "APPLICATION_INSIGHTS_CONNECTION_STRING";
     LangGraph.enable_content_recording :=
       String.eqb (Py.lower (Py.getenv env "OTEL_RECORD_CONTENT" "true")) "true";
     LangGraph.tracer_name := "Weekend Planner Agent" |}.

(** The two weather reports, read off a result by key. *)
Definition sunny_or_rainy (weather : gmap string OpenAIAgents.value) : Prop :=
  (weather !! "temperature" = Some (OpenAIAgents.Int 72) ∧
   weather !! "description" = Some (OpenAIAgents.Str "Sunny")) ∨
  (weather !! "temperature" = Some (OpenAIAgents.Int 60) ∧
   weather !! "description" = Some (OpenAIAgents.Str "Rainy")).

End LangChain.

(** * Properties *)

(** ** The definitions on concrete inputs *)

Example lower_examples :
  Py.lower "GitHub" = "github" ∧ Py.lower "AZURE" = "azure" ∧ Py.lower "a-Z_9" = "a-z_9".
Proof. done. Qed.

Example rstrip_slash_examples :
  Py.rstrip_slash "https://models.inference.ai.azure.com/"
  = "https://models.inference.ai.azure.com" ∧
  Py.rstrip_slash "a//" = "a" ∧ Py.rstrip_slash "/" = "" ∧ Py.rstrip_slash "a/b" = "a/b".
Proof. done. Qed.

Example slice_to_examples :
  Py.slice_to 3 "Seattle" = "Sea" ∧ Py.slice_to 500 "Seattle" = "Seattle".
Proof. done. Qed.

Example should_continue_examples :
  LangGraph.should_continue {| LangGraph.messages := [] |} = Raise IndexError ∧
  LangGraph.should_continue {| LangGraph.messages := [LangGraph.input_message] |}
  = Raise (AttributeError "tool_calls") ∧
  LangGraph.should_continue
    {| LangGraph.messages :=
         [LangGraph.input_message; LangGraph.AIMessage None "Done." []] |}
  = Ok "end".
Proof. done. Qed.

Example music_router_run :
  LangGraph.main 25
    [LangGraph.Reply (Some "run-1") "" [LangGraph.spotify_call "call_1" "Shake It Off"];
     LangGraph.Reply (Some "run-2") "Now playing Shake It Off." []]
  = LangGraph.Finished
      {| LangGraph.at_node := LangGraph.END;
         LangGraph.state :=
           {| LangGraph.messages :=
                [LangGraph.input_message;
                 LangGraph.AIMessage (Some "run-1") ""
                   [LangGraph.spotify_call "call_1" "Shake It Off"];
                 LangGraph.ToolMessage None "Successfully played Shake It Off on Spotify!"
                   "play_song_on_spotify" "call_1" LangGraph.success;
                 LangGraph.AIMessage (Some "run-2") "Now playing Shake It Off." []] |};
         LangGraph.backend := [];
         LangGraph.executed := [LangGraph.agent; LangGraph.action; LangGraph.agent] |}.
Proof. reflexivity. Qed.

Example model_failure_aborts :
  LangGraph.main 25 [LangGraph.Failure (ModelInvocationFailure "unreachable")]
  = LangGraph.Failed (ModelInvocationFailure "unreachable")
      {| LangGraph.at_node := LangGraph.agent;
         LangGraph.state := {| LangGraph.messages := [LangGraph.input_message] |};
         LangGraph.backend := [LangGraph.Failure (ModelInvocationFailure "unreachable")];
         LangGraph.executed := [] |}.
Proof. reflexivity. Qed.

Example reducer_replaces_by_id :
  LangGraph.add_messages
    {| LangGraph.messages :=
         [LangGraph.input_message;
          LangGraph.AIMessage (Some "run-1") "" [LangGraph.spotify_call "call_1" "Shake It Off"];
          LangGraph.ToolMessage None "Successfully played Shake It Off on Spotify!"
            "play_song_on_spotify" "call_1" LangGraph.success] |}
    [LangGraph.AIMessage (Some "run-1") "Now playing Shake It Off." []]
  = {| LangGraph.messages :=
         [LangGraph.input_message;
          LangGraph.AIMessage (Some "run-1") "Now playing Shake It Off." [];
          LangGraph.ToolMessage None "Successfully played Shake It Off on Spotify!"
            "play_song_on_spotify" "call_1" LangGraph.success] |}.
Proof. reflexivity. Qed.

Example unknown_tool_is_absorbed :
  LangGraph.execute {| LangGraph.call_id := "call_9"; LangGraph.tool_name := "play_song_on_tidal";
                       LangGraph.arguments := {["song" := "Shake It Off"]} |}
  = LangGraph.ToolMessage None "UnknownTool" "play_song_on_tidal" "call_9" LangGraph.error.
Proof. reflexivity. Qed.

Example resolve_github :
  (λ cfg, (OpenAIAgents.model_name cfg, OpenAIAgents.base_url cfg, OpenAIAgents.provider cfg,
           OpenAIAgents.build_client cfg ()))
  <$> match OpenAIAgents._resolve_api_config
              {["GITHUB_TOKEN" := "t"; "GITHUB_OPENAI_BASE_URL" := "https://example.test/v1/"]} with
      | Ok cfg => Some cfg
      | Raise _ => None
      end
  = Some ("gpt-4o", "https://example.test/v1", "azure.ai.inference",
          OpenAIAgents.AsyncOpenAI "https://example.test/v1" "t").
Proof. reflexivity. Qed.

Example resolve_azure_missing_version :
  match OpenAIAgents._resolve_api_config
          {["API_HOST" := "Azure"; "AZURE_OPENAI_ENDPOINT" := "https://example.test/"]} with
  | Ok _ => None
  | Raise e => Some e
  end = Some (KeyError "AZURE_OPENAI_VERSION").
Proof. reflexivity. Qed.

Example resolve_unsupported :
  match OpenAIAgents._resolve_api_config {["API_HOST" := "OpenAI"]} with
  | Ok _ => None
  | Raise e => Some e
  end = Some (ValueError "Unsupported API_HOST 'openai'. Expected 'github' or 'azure'.").
Proof. reflexivity. Qed.

Example main_on_cancellation :
  let r := OpenAIAgents.main
             {| OpenAIAgents.build_client := λ _, OpenAIAgents.AsyncOpenAI "u" "t";
                OpenAIAgents.model_name := "gpt-4o"; OpenAIAgents.base_url := "u";
                OpenAIAgents.provider := "azure.ai.inference" |}
             (OpenAIAgents.RunRaises (OpenAIAgents.BaseExc CancelledError)) in
  OpenAIAgents.end_calls (OpenAIAgents.root_span r) = 1 ∧
  OpenAIAgents.exceptions (OpenAIAgents.root_span r) = [] ∧
  OpenAIAgents.attributes (OpenAIAgents.root_span r) !! "request.success" = None ∧
  OpenAIAgents.span_name (OpenAIAgents.root_span r)
  = "weekend_planning_session[azure.ai.inference]".
Proof. done. Qed.

Example main_on_exception :
  let r := OpenAIAgents.main
             {| OpenAIAgents.build_client := λ _, OpenAIAgents.AsyncOpenAI "u" "t";
                OpenAIAgents.model_name := "gpt-4o"; OpenAIAgents.base_url := "u";
                OpenAIAgents.provider := "azure.ai.inference" |}
             (OpenAIAgents.RunRaises
                (OpenAIAgents.Exc (ModelInvocationFailure "unreachable"))) in
  OpenAIAgents.end_calls (OpenAIAgents.root_span r) = 1 ∧
  OpenAIAgents.exceptions (OpenAIAgents.root_span r)
  = [ModelInvocationFailure "unreachable"; ModelInvocationFailure "unreachable"] ∧
  OpenAIAgents.status (OpenAIAgents.root_span r)
  = OpenAIAgents.Error (ModelInvocationFailure "unreachable") ∧
  OpenAIAgents.attributes (OpenAIAgents.root_span r) !! "request.success"
  = Some (OpenAIAgents.AttrBool false).
Proof. done. Qed.

Example configure_tracer_rejected_string :
  OpenAIAgents._configure_tracer
    (λ connection,
       if String.prefix "InstrumentationKey=" connection then None
       else Some (ValueError "Invalid connection string"))
    true {["APPLICATION_INSIGHTS_CONNECTION_STRING" := "abc"]}
  = Raise (ValueError "Invalid connection string").
Proof. reflexivity. Qed.

Example capture_env_port_raises :
  let urlparse := λ _ : string,
    Ok {| OpenAIAgents.hostname := Some "example.test";
          OpenAIAgents.port := Raise (ValueError "Port out of range 0-65535") |} in
  OpenAIAgents._set_capture_env_raises urlparse "https://example.test:99999"
  = Some (ValueError "Port out of range 0-65535") ∧
  OpenAIAgents._set_capture_env urlparse "azure.ai.openai" "https://example.test:99999" ∅
  !! "OTEL_GENAI_SERVER_ADDRESS" = Some "example.test" ∧
  OpenAIAgents._set_capture_env urlparse "azure.ai.openai" "https://example.test:99999" ∅
  !! "OTEL_GENAI_SERVER_PORT" = None.
Proof. done. Qed.

(** ** The Turn Controller (music_router.py) *)

Section TurnController.

Import LangGraph.

Lemma last_message_snoc (ms : list Message) (m : Message) :
  last_message (ms ++ [m]) = Ok m.
Proof. unfold last_message. by rewrite last_snoc. Qed.

Lemma should_continue_last (st : MessagesState) id content tool_calls :
  last (messages st) = Some (AIMessage id content tool_calls) →
  should_continue st = Ok (if negb (Py.truthy tool_calls) then "end" else "continue").
Proof. intros Hlast. unfold should_continue, last_message. by rewrite Hlast. Qed.

Lemma route_last (st : MessagesState) id content tool_calls :
  last (messages st) = Some (AIMessage id content tool_calls) →
  route st = Ok (if Py.truthy tool_calls then action else END).
Proof.
  intros Hlast. unfold route. rewrite (should_continue_last _ _ _ _ Hlast).
  by destruct tool_calls.
Qed.

(** C1. A state whose last message is an assistant message with tool calls
    is routed by [should_continue] to ["continue"], which the conditional
    edge maps to [action]; with no tool calls it is routed to ["end"],
    mapped to [END], and the content of that message is the final answer. *)
Theorem should_continue_routes (st : MessagesState) id content tool_calls :
  last (messages st) = Some (AIMessage id content tool_calls) →
  (tool_calls ≠ [] →
     should_continue st = Ok "continue" ∧ route st = Ok action) ∧
  (tool_calls = [] →
     should_continue st = Ok "end" ∧ route st = Ok END ∧
     final_answer st = Ok content).
Proof.
  intros Hlast.
  pose proof (should_continue_last _ _ _ _ Hlast) as Hsc.
  pose proof (route_last _ _ _ _ Hlast) as Hroute.
  split.
  - intros Hcalls. destruct tool_calls as [|call calls]; [done|]. by split.
  - intros ->. repeat split; try done.
    unfold final_answer, last_message. by rewrite Hlast.
Qed.

Lemma should_continue_routes_witness :
  route {| messages := [input_message;
                        AIMessage None "" [spotify_call "1" "Shake It Off"]] |}
    = Ok action ∧
  final_answer {| messages := [input_message; AIMessage None "Enjoy!" []] |} = Ok "Enjoy!".
Proof.
  split.
  - destruct (should_continue_routes
                {| messages := [input_message;
                                AIMessage None "" [spotify_call "1" "Shake It Off"]] |}
                None "" [spotify_call "1" "Shake It Off"] eq_refl) as [Hcontinue _].
    apply Hcontinue. discriminate.
  - destruct (should_continue_routes
                {| messages := [input_message; AIMessage None "Enjoy!" []] |}
                None "Enjoy!" [] eq_refl) as [_ Hend].
    apply Hend. reflexivity.
Defined.

(** *** The reducer *)

Lemma thread_ids_cons m ms :
  thread_ids (m :: ms)
  = match message_id m with
    | Some id => id :: thread_ids ms
    | None => thread_ids ms
    end.
Proof. reflexivity. Qed.

Lemma thread_ids_app ms1 ms2 : thread_ids (ms1 ++ ms2) = thread_ids ms1 ++ thread_ids ms2.
Proof. apply omap_app. Qed.

Lemma last_index_None id ms : last_index id ms = None ↔ id ∉ thread_ids ms.
Proof.
  induction ms as [|m ms IH].
  - split; [intros _; apply not_elem_of_nil|done].
  - cbn [last_index]. rewrite thread_ids_cons. destruct (last_index id ms) as [k|].
    + split; [done|]. intros Hnot. exfalso.
      assert (id ∉ thread_ids ms) as Hrest
        by (destruct (message_id m); [by apply not_elem_of_cons in Hnot as [_ ?]|done]).
      apply IH in Hrest. done.
    + assert (id ∉ thread_ids ms) as Hrest by by apply IH.
      case_decide as Hm.
      * rewrite Hm. split; [done|]. intros Hnot. exfalso. apply Hnot. by left.
      * split; [|done]. intros _. destruct (message_id m) as [i|]; [|done].
        apply not_elem_of_cons. split; [congruence|done].
Qed.

Lemma merge_fresh ms m :
  (∀ id, message_id m = Some id → id ∉ thread_ids ms) → merge ms m = ms ++ [m].
Proof.
  intros Hfresh. unfold merge. destruct (message_id m) as [id|]; [|done].
  by rewrite (proj2 (last_index_None id ms)) by by apply Hfresh.
Qed.

Lemma merge_without_ids update :
  Forall (λ m, message_id m = None) update →
  ∀ ms, foldl merge ms update = ms ++ update.
Proof.
  induction 1 as [|m update Hm _ IH]; intros ms; simpl.
  - by rewrite app_nil_r.
  - rewrite merge_fresh by (intros id; by rewrite Hm).
    by rewrite IH, <- app_assoc.
Qed.

Lemma execute_without_id call : message_id (execute call) = None.
Proof. unfold execute. by repeat case_match. Qed.

Lemma tool_messages_without_ids calls :
  Forall (λ m, message_id m = None) (map execute calls).
Proof. apply Forall_fmap, Forall_forall. intros call _. apply execute_without_id. Qed.

Lemma thread_ids_tool_messages calls : thread_ids (map execute calls) = [].
Proof.
  induction calls as [|call calls IH]; [done|].
  change (map execute (call :: calls)) with (execute call :: map execute calls).
  by rewrite thread_ids_cons, execute_without_id.
Qed.

(** *** Replies with new ids *)

Lemma fresh_ids_head history reply rest id :
  fresh_ids history (reply :: rest) → reply_id reply = Some id → id ∉ thread_ids history.
Proof.
  intros [_ Hnew] Hid. simpl in Hnew. rewrite Hid in Hnew. simpl in Hnew.
  by apply Forall_cons in Hnew as [? _].
Qed.

Lemma fresh_ids_step history history' reply rest :
  fresh_ids history (reply :: rest) →
  thread_ids history' = thread_ids history ++ option_list (reply_id reply) →
  fresh_ids history' rest.
Proof.
  intros [Hnodup Hnew] Hids. unfold fresh_ids. rewrite Hids.
  simpl in Hnodup, Hnew. destruct (reply_id reply) as [id|]; simpl in *.
  - apply NoDup_cons in Hnodup as [Hid Hnodup].
    apply Forall_cons in Hnew as [_ Hnew].
    split; [done|]. apply Forall_forall. intros i Hi.
    rewrite Forall_forall in Hnew.
    rewrite elem_of_app, list_elem_of_singleton. intros [?| ->]; [by apply (Hnew i)|done].
  - by rewrite app_nil_r.
Qed.

Lemma fresh_ids_same history history' replies :
  thread_ids history' = thread_ids history →
  fresh_ids history replies → fresh_ids history' replies.
Proof. unfold fresh_ids. by intros ->. Qed.

Lemma fresh_ids_app_l history replies1 replies2 :
  fresh_ids history (replies1 ++ replies2) → fresh_ids history replies1.
Proof.
  unfold fresh_ids. rewrite omap_app. intros [Hnodup Hnew].
  apply NoDup_app in Hnodup as (? & _ & _). by apply Forall_app in Hnew as [? _].
Qed.

Lemma transcript_cons round rounds :
  transcript (round :: rounds) = round_messages round ++ transcript rounds.
Proof. reflexivity. Qed.

Lemma thread_ids_round round :
  thread_ids (round_messages round) = option_list (reply_id (reply_of round)).
Proof.
  unfold round_messages. rewrite thread_ids_cons, thread_ids_tool_messages.
  simpl. by destruct (round.1.1).
Qed.

Lemma fresh_ids_after_rounds history rounds rest :
  fresh_ids history (map reply_of rounds ++ rest) →
  fresh_ids (history ++ transcript rounds) rest.
Proof.
  revert history. induction rounds as [|round rounds IH]; intros history Hfresh.
  - unfold transcript; simpl. by rewrite app_nil_r.
  - rewrite transcript_cons, app_assoc. apply IH.
    apply (fresh_ids_step history _ (reply_of round)); [done|].
    by rewrite thread_ids_app, thread_ids_round.
Qed.

(** *** Single steps *)

Lemma step_agent_reply history id content calls rest done :
  (∀ i, id = Some i → i ∉ thread_ids history) →
  step {| at_node := agent; state := {| messages := history |};
          backend := Reply id content calls :: rest; executed := done |}
  = Next {| at_node := if Py.truthy calls then action else END;
            state := {| messages := history ++ [AIMessage id content calls] |};
            backend := rest; executed := done ++ [agent] |}.
Proof.
  intros Hfresh. unfold step, call_model, add_messages; simpl.
  rewrite merge_fresh by done.
  by rewrite (route_last _ id content calls) by apply last_snoc.
Qed.

Lemma step_action history id content calls replies done :
  step {| at_node := action;
          state := {| messages := history ++ [AIMessage id content calls] |};
          backend := replies; executed := done |}
  = Next {| at_node := agent;
            state := {| messages :=
              history ++ AIMessage id content calls :: map execute calls |};
            backend := replies; executed := done ++ [action] |}.
Proof.
  unfold step, TOOL_NODE, add_messages; simpl.
  rewrite last_message_snoc; simpl.
  rewrite merge_without_ids by apply tool_messages_without_ids.
  by rewrite <- app_assoc.
Qed.

(** *** Tool-call rounds *)

Lemma run_round round history rest done fuel :
  round.2 ≠ [] →
  (∀ i, round.1.1 = Some i → i ∉ thread_ids history) →
  run (S (S fuel)) {| at_node := agent; state := {| messages := history |};
                      backend := reply_of round :: rest; executed := done |}
  = run fuel {| at_node := agent;
                state := {| messages := history ++ round_messages round |};
                backend := rest; executed := done ++ [agent; action] |}.
Proof.
  destruct round as [[id content] calls]; simpl. intros Hcalls Hfresh.
  destruct calls as [|call calls]; [done|].
  unfold reply_of; simpl.
  rewrite step_agent_reply by done; simpl.
  rewrite step_action.
  by rewrite <- app_assoc.
Qed.

Lemma run_rounds rounds :
  Forall (λ round, round.2 ≠ []) rounds →
  ∀ history rest done fuel,
    fresh_ids history (map reply_of rounds) →
    run (2 * length rounds + fuel)
        {| at_node := agent; state := {| messages := history |};
           backend := map reply_of rounds ++ rest; executed := done |}
    = run fuel {| at_node := agent;
                  state := {| messages := history ++ transcript rounds |};
                  backend := rest;
                  executed := done ++ round_trip (length rounds) |}.
Proof.
  induction 1 as [|round rounds Hround _ IH]; intros history rest done fuel Hfresh.
  - unfold transcript, round_trip; simpl. by rewrite !app_nil_r.
  - replace (2 * length (round :: rounds) + fuel)
      with (S (S (2 * length rounds + fuel))) by (simpl; lia).
    change (map reply_of (round :: rounds) ++ rest)
      with (reply_of round :: (map reply_of rounds ++ rest)).
    rewrite run_round; [|done|].
    + rewrite IH.
      * unfold transcript, round_trip; simpl. by rewrite <- !app_assoc.
      * apply (fresh_ids_after_rounds history [round] (map reply_of rounds)) in Hfresh.
        by rewrite transcript_cons, app_nil_r in Hfresh.
    + intros i Hi. by apply (fresh_ids_head history (reply_of round) (map reply_of rounds)).
Qed.

Lemma run_entry history replies fuel :
  run (S fuel) (entry history replies)
  = run fuel {| at_node := agent; state := {| messages := history |};
                backend := replies; executed := [] |}.
Proof. reflexivity. Qed.

Lemma visits_app n l1 l2 : visits n (l1 ++ l2) = visits n l1 + visits n l2.
Proof. unfold visits. by rewrite filter_app, length_app. Qed.

Lemma visits_round_trip k :
  visits agent (round_trip k) = k ∧ visits action (round_trip k) = k.
Proof.
  induction k as [|k [IHagent IHaction]]; [done|].
  unfold round_trip in *; simpl.
  change (agent :: action :: ?l) with ([agent; action] ++ l).
  rewrite !visits_app, IHagent, IHaction. done.
Qed.

(** A reply that reuses an id of the thread does not reach [END], and a run
    that needs as many steps as the limit allows, or more, is failed by the
    runtime: one reply with a tool call followed by one without, and yet no
    run to [END]. *)
Lemma rounds_then_final_counterexample :
  (∃ c,
     APP_stream 25 [input_message]
       [Reply (Some "run-1") "" [spotify_call "call_1" "Shake It Off"];
        Reply (Some "run-1") "Now playing Shake It Off." []]
     = Failed (AttributeError "tool_calls") c ∧
     visits action (executed c) = 1 ∧ visits agent (executed c) = 1) ∧
  (∃ c,
     APP_stream 2 [input_message]
       [Reply (Some "run-1") "" [spotify_call "call_1" "Shake It Off"];
        Reply (Some "run-2") "Now playing Shake It Off." []]
     = Failed GraphRecursionError c ∧
     visits action (executed c) = 1 ∧ visits agent (executed c) = 1).
Proof. split; eexists; (split; [reflexivity|]); split; reflexivity. Qed.

(** C2, as the code has it.  When the model answers with N replies that
    carry tool calls and then one that carries none, the replies bring ids
    that are new to the thread, and the run stays within the recursion limit
    (its 2N+1 steps are fewer than the limit), the run ends at [END] having
    executed [agent], [action] N times in turn and one last [agent]: exactly
    N ACTION steps and N+1 AGENT steps; the final answer is the content of
    the last reply. *)
Theorem rounds_then_final rounds final_id final history limit :
  Forall (λ round, round.2 ≠ []) rounds →
  fresh_ids history (map reply_of rounds ++ [Reply final_id final []]) →
  2 * length rounds + 1 < limit →
  ∃ c,
    APP_stream limit history (map reply_of rounds ++ [Reply final_id final []])
    = Finished c ∧
    at_node c = END ∧
    executed c = round_trip (length rounds) ++ [agent] ∧
    visits action (executed c) = length rounds ∧
    visits agent (executed c) = length rounds + 1 ∧
    messages (state c)
    = history ++ transcript rounds ++ [AIMessage final_id final []] ∧
    final_answer (state c) = Ok final.
Proof.
  intros Hrounds Hfresh Hlimit.
  eexists. split.
  - unfold APP_stream.
    replace (S limit)
      with (S (2 * length rounds + S (S (limit - 2 * length rounds - 2)))) by lia.
    rewrite run_entry, run_rounds; [|done|by apply fresh_ids_app_l in Hfresh].
    change (run (S (S ?extra)) ?c) with
      (match step c with
       | Next c' => run (S extra) c'
       | Done => Finished c
       | Await => Suspended c
       | Fail e => Failed e c
       end).
    rewrite step_agent_reply; [reflexivity|].
    intros i ->. apply fresh_ids_after_rounds in Hfresh.
    by apply (fresh_ids_head _ (Reply (Some i) final []) []).
  - simpl. destruct (visits_round_trip (length rounds)) as [Hagent Haction].
    repeat split.
    + by rewrite visits_app, Haction.
    + by rewrite visits_app, Hagent.
    + by rewrite <- app_assoc.
    + unfold final_answer. cbn [messages]. by rewrite last_message_snoc.
Qed.

Lemma rounds_then_final_witness :
  ∃ c,
    APP_stream 25 [input_message]
      (map reply_of [(Some "run-1", "", [spotify_call "1" "Shake It Off"]);
                     (Some "run-2", "", [apple_call "2" "Shake It Off"])] ++
       [Reply (Some "run-3") "Playing it on both." []]) = Finished c ∧
    at_node c = END ∧
    executed c = round_trip 2 ++ [agent] ∧
    visits action (executed c) = 2 ∧
    visits agent (executed c) = 2 + 1 ∧
    messages (state c)
    = [input_message] ++
      transcript [(Some "run-1", "", [spotify_call "1" "Shake It Off"]);
                  (Some "run-2", "", [apple_call "2" "Shake It Off"])] ++
      [AIMessage (Some "run-3") "Playing it on both." []] ∧
    final_answer (state c) = Ok "Playing it on both.".
Proof.
  apply (rounds_then_final
           [(Some "run-1", "", [spotify_call "1" "Shake It Off"]);
            (Some "run-2", "", [apple_call "2" "Shake It Off"])]
           (Some "run-3") "Playing it on both." [input_message] 25).
  - repeat constructor; discriminate.
  - apply (bool_decide_unpack _). by vm_compute.
  - simpl. lia.
Defined.






(** *** The history only grows, ids permitting *)

Lemma TOOL_NODE_update st update :
  TOOL_NODE st = Ok update → ∃ calls, update = map execute calls.
Proof.
  unfold TOOL_NODE. destruct (last_message (messages st)) as [m|]; [|done]. simpl.
  destruct (tool_calls_of m) as [calls|]; [|done]. simpl.
  intros [= <-]. by exists calls.
Qed.

Lemma step_prefix c c' :
  fresh_ids (messages (state c)) (backend c) → step c = Next c' →
  messages (state c) `prefix_of` messages (state c') ∧
  fresh_ids (messages (state c')) (backend c').
Proof.
  unfold step. intros Hfresh. destruct (at_node c).
  - intros [= <-]. done.
  - destruct (backend c) as [|reply rest] eqn:Hbackend; [done|].
    destruct reply as [id content calls|e]; [|done].
    unfold call_model, add_messages; simpl.
    rewrite merge_fresh
      by (intros i Hi; by apply (fresh_ids_head _ (Reply id content calls) rest)).
    destruct (route _); [|done].
    intros [= <-]. simpl. split; [by apply prefix_app_r|].
    apply (fresh_ids_step _ _ _ _ Hfresh). by rewrite thread_ids_app.
  - destruct (TOOL_NODE (state c)) as [update|] eqn:Hupdate; [|done].
    apply TOOL_NODE_update in Hupdate as [calls ->].
    intros [= <-]. unfold add_messages; simpl.
    rewrite merge_without_ids by apply tool_messages_without_ids.
    split; [by apply prefix_app_r|].
    apply (fresh_ids_same (messages (state c))); [|done].
    by rewrite thread_ids_app, thread_ids_tool_messages, app_nil_r.
  - done.
Qed.

(** A reply that carries the id of the thread's last message takes its
    place: the step goes through and the history before it is no prefix of
    the history after it. *)
Lemma history_is_prefix_counterexample :
  let before :=
    [input_message; AIMessage (Some "run-1") "Now playing Shake It Off." []] in
  let c := {| at_node := agent; state := {| messages := before |};
              backend := [Reply (Some "run-1") "Now playing Love Story." []];
              executed := [] |} in
  messages (state (outcome_config (run 1 c)))
  = [input_message; AIMessage (Some "run-1") "Now playing Love Story." []] ∧
  ¬ messages (state c) `prefix_of` messages (state (outcome_config (run 1 c))).
Proof.
  split; [reflexivity|].
  intros [more Hmore]. simpl in Hmore. discriminate Hmore.
Qed.

(** C8, as the code has it.  As long as the replies bring ids that are new
    to the thread, whatever AGENT and ACTION steps a run takes, the history
    it started from is a prefix of the history it has reached: these steps
    only append, no entry is lost, changed or moved. *)
Theorem history_is_prefix fuel c :
  fresh_ids (messages (state c)) (backend c) →
  messages (state c) `prefix_of` messages (state (outcome_config (run fuel c))).
Proof.
  revert c. induction fuel as [|fuel IH]; intros c Hfresh; simpl; [done|].
  destruct (step c) as [c'| | |e] eqn:Hstep; simpl; try done.
  destruct (step_prefix c c' Hfresh Hstep) as [Hprefix Hfresh'].
  etrans; [exact Hprefix|by apply IH].
Qed.

Lemma history_is_prefix_witness :
  let c := entry [input_message]
             [Reply (Some "run-1") "" [spotify_call "call_1" "Shake It Off"];
              Reply (Some "run-2") "Now playing Shake It Off." []] in
  messages (state c) `prefix_of` messages (state (outcome_config (run 5 c))).
Proof.
  apply (history_is_prefix 5
           (entry [input_message]
              [Reply (Some "run-1") "" [spotify_call "call_1" "Shake It Off"];
               Reply (Some "run-2") "Now playing Shake It Off." []])).
  apply (bool_decide_unpack _). by vm_compute.
Defined.

End TurnController.

(** ** The Tool Dispatcher *)

Section ToolDispatcher.

Import LangGraph.

Lemma foldl_complete_lookup (calls : list ToolCall) (order : list nat) :
  ∀ (pool : gmap nat Message) (i : nat),
    foldl (complete calls) pool order !! i
    = match calls !! i with
      | Some call => if decide (i ∈ order) then Some (execute call) else pool !! i
      | None => pool !! i
      end.
Proof.
  induction order as [|j order IH]; intros pool i; cbn [foldl].
  - destruct (calls !! i); [|done]. by rewrite decide_False by set_solver.
  - rewrite IH. unfold complete.
    destruct (calls !! i) as [call|] eqn:Hi.
    + destruct (decide (i = j)) as [->|Hne].
      * rewrite Hi, lookup_insert_eq.
        rewrite (decide_True (P := j ∈ j :: order)) by set_solver.
        by destruct (decide (j ∈ order)).
      * destruct (decide (i ∈ order)) as [Hin|Hout].
        -- by rewrite decide_True by set_solver.
        -- rewrite decide_False by (by intros [?|?]%elem_of_cons).
           destruct (calls !! j); [|done]. by rewrite lookup_insert_ne.
    + destruct (calls !! j) eqn:Hj; [|done].
      rewrite lookup_insert_ne; [done|]. intros ->. congruence.
Qed.

Lemma omap_ext_elem {A B} (f g : A → option B) (l : list A) :
  (∀ x, x ∈ l → f x = g x) → omap f l = omap g l.
Proof.
  induction l as [|x l IH]; intros Hfg; [done|]. csimpl.
  rewrite (Hfg x) by set_solver. rewrite IH; [done|].
  intros y Hy. apply Hfg. set_solver.
Qed.

Lemma omap_lookup_seq {A B} (f : A → B) (l : list A) :
  omap (λ i, f <$> l !! i) (seq 0 (length l)) = map f l.
Proof.
  induction l as [|x l IH] using rev_ind; [done|].
  rewrite length_app, Nat.add_1_r, seq_S, omap_app, map_app. simpl.
  f_equal.
  - rewrite <- IH. apply omap_ext_elem. intros i Hi.
    apply elem_of_seq in Hi. by rewrite lookup_app_l by lia.
  - by rewrite list_lookup_middle.
Qed.

Lemma feedback_any_order (calls : list ToolCall) (completion_order : list nat) :
  completion_order ≡ₚ seq 0 (length calls) →
  feedback calls completion_order = map execute calls.
Proof.
  intros Hperm. unfold feedback, completed.
  rewrite <- (omap_lookup_seq execute calls).
  apply omap_ext_elem. intros i Hi.
  rewrite foldl_complete_lookup, lookup_empty.
  destruct (calls !! i) as [call|] eqn:Hcall; [|done].
  by rewrite decide_True by (by rewrite Hperm).
Qed.

Lemma answered_in_order (calls : list ToolCall) :
  omap answered_call (map execute calls) = map call_id calls.
Proof.
  induction calls as [|call calls IH]; [done|]. csimpl.
  replace (answered_call (execute call)) with (Some (call_id call)).
  - by rewrite IH.
  - unfold execute. by repeat case_match.
Qed.

(** C7. For an assistant message with several tool calls, the tool
    messages of the round answer the requests in the order of
    [tool_calls]; executing the calls in parallel gives, for every
    completion order, the very list the sequential node gives. *)
Theorem feedback_in_request_order history id content calls completion_order :
  completion_order ≡ₚ seq 0 (length calls) →
  let st := {| messages := history ++ [AIMessage id content calls] |} in
  TOOL_NODE st = Ok (map execute calls) ∧
  TOOL_NODE_parallel completion_order st = TOOL_NODE st ∧
  omap answered_call (map execute calls) = map call_id calls.
Proof.
  intros Hperm st. subst st.
  unfold TOOL_NODE_parallel, TOOL_NODE; cbn [messages].
  rewrite last_message_snoc; simpl.
  rewrite feedback_any_order by done.
  auto using answered_in_order.
Qed.

Lemma feedback_in_request_order_witness :
  let calls := [spotify_call "1" "Shake It Off"; apple_call "2" "Love Story"] in
  let st := {| messages := [input_message] ++ [AIMessage None "" calls] |} in
  TOOL_NODE st = Ok (map execute calls) ∧
  TOOL_NODE_parallel [1; 0] st = TOOL_NODE st ∧
  omap answered_call (map execute calls) = map call_id calls.
Proof.
  apply (feedback_in_request_order [input_message] None ""
           [spotify_call "1" "Shake It Off"; apple_call "2" "Love Story"] [1; 0]).
  simpl. apply perm_swap.
Defined.

End ToolDispatcher.

(** ** The Message Store *)

Section MessageStoreFacts.

Import LangGraph MessageStore.

Lemma perform_keeps_snapshot s o token snapshot :
  snapshots s !! token = Some snapshot → token < next_token s →
  snapshots (perform s o) !! token = Some snapshot ∧
  token < next_token (perform s o).
Proof.
  intros Hsnap Hlt. destruct o as [thread message|thread|thread|token']; simpl.
  - unfold append.
    destruct (threads s !! thread); [done|].
    by destruct (require_registration s).
  - done.
  - unfold checkpoint. destruct (threads s !! thread); simpl; [|done].
    split; [|lia]. rewrite lookup_insert_ne; [done|lia].
  - unfold restore. by destruct (snapshots s !! token').
Qed.

Lemma foldl_perform_keeps_snapshot ops :
  ∀ s token snapshot,
    snapshots s !! token = Some snapshot → token < next_token s →
    snapshots (foldl perform s ops) !! token = Some snapshot.
Proof.
  induction ops as [|o ops IH]; intros s token snapshot Hsnap Hlt; simpl; [done|].
  destruct (perform_keeps_snapshot s o token snapshot Hsnap Hlt) as [Hsnap' Hlt'].
  by apply IH.
Qed.

(** C6. Take any thread at any point of its history: [checkpoint] hands
    out a token, and whatever is appended, loaded, checkpointed or restored
    afterwards, [restore] on that token recreates the thread with exactly
    the Message sequence it had when the checkpoint was taken. *)
Theorem checkpoint_restore_roundtrip s thread sequence ops :
  load thread s = Answer sequence →
  ∃ token s1 s3,
    checkpoint thread s = Answer (token, s1) ∧
    restore token (foldl perform s1 ops)
    = Answer ({| thread_id := thread; history := sequence |}, s3) ∧
    load thread s3 = Answer sequence.
Proof.
  unfold load, checkpoint. destruct (threads s !! thread) as [ms|]; [|done].
  intros [= ->]. do 3 eexists. split; [done|].
  unfold restore.
  rewrite (foldl_perform_keeps_snapshot ops _ (next_token s)
             {| thread_id := thread; history := sequence |}); simpl.
  - split; [done|]. unfold load; simpl. by rewrite lookup_insert_eq.
  - by rewrite lookup_insert_eq.
  - lia.
Qed.

Lemma checkpoint_restore_roundtrip_witness :
  let s := {| threads := {["1" := [input_message]]}; snapshots := ∅;
              next_token := 0; require_registration := false |} in
  ∃ token s1 s3,
    checkpoint "1" s = Answer (token, s1) ∧
    restore token (foldl perform s1 [Append "1" (AIMessage None "Enjoy!" [])])
    = Answer ({| thread_id := "1"; history := [input_message] |}, s3) ∧
    load "1" s3 = Answer [input_message].
Proof.
  apply (checkpoint_restore_roundtrip
           {| threads := {["1" := [input_message]]}; snapshots := ∅;
              next_token := 0; require_registration := false |}
           "1" [input_message] [Append "1" (AIMessage None "Enjoy!" [])]).
  reflexivity.
Defined.

End MessageStoreFacts.

(** ** The Session Runner (1-OpenAIAgents/weekend_planner.py) *)

Section SessionRunner.

Import OpenAIAgents.

(** C4. Whatever the awaited run does, [main] ends the root span exactly
    once before it is left.  When the run raises an [Exception], the
    exception is recorded on the root span, [request.success] is set to
    false, and the exception leaves [main]; nothing that is raised is
    swallowed, and a run that returns raises nothing. *)
Theorem root_span_closed_once (API_CONFIG : _ApiConfig) :
  (∀ runner, end_calls (root_span (main API_CONFIG runner)) = 1) ∧
  (∀ exc,
     let r := main API_CONFIG (RunRaises (Exc exc)) in
     exc ∈ exceptions (root_span r) ∧
     attributes (root_span r) !! "request.success" = Some (AttrBool false) ∧
     propagated r = Some (Exc exc)) ∧
  (∀ what, propagated (main API_CONFIG (RunRaises what)) = Some what) ∧
  (∀ final_output, propagated (main API_CONFIG (RunResult final_output)) = None).
Proof.
  repeat split.
  - by intros [final_output|[exc|s]].
  - simpl. set_solver.
  - by intros [exc|s].
Qed.

(** *** Slices *)

Lemma slice_to_length n s :
  String.length (Py.slice_to n s) = Nat.min n (String.length s).
Proof.
  revert s. induction n as [|n IH]; intros [|c s]; simpl; [done..|].
  by rewrite IH.
Qed.

Lemma slice_to_prefix n s : ∃ rest, s = Py.slice_to n s +:+ rest.
Proof.
  revert s. induction n as [|n IH]; intros s.
  - by exists s.
  - destruct s as [|c s]; [by exists EmptyString|].
    destruct (IH s) as [rest Hrest]. exists rest.
    change (String c s = String c (Py.slice_to n s +:+ rest)). by rewrite <- Hrest.
Qed.

Lemma slice_to_all n s : (String.length s ≤ n)%nat → Py.slice_to n s = s.
Proof.
  revert s. induction n as [|n IH]; intros [|c s]; simpl; try done; [lia|].
  intros Hle. rewrite IH; [done|lia].
Qed.

(** C5. After a run that returns, the root span carries the agent name,
    the request text, [request.success] set to true, and in
    [agent.response] the answer cut at 500 characters: the first 500
    characters of an answer longer than that, and the whole answer
    otherwise. *)
Theorem session_span_attributes (API_CONFIG : _ApiConfig) final_output :
  let answer := or_empty final_output in
  let attrs := attributes (root_span (main API_CONFIG (RunResult final_output))) in
  attrs !! "agent.name" = Some (AttrStr "Weekend Planner") ∧
  attrs !! "user.request" = Some (AttrStr "Hi, what can I do this weekend in Seattle?") ∧
  attrs !! "request.success" = Some (AttrBool true) ∧
  ∃ response,
    attrs !! "agent.response" = Some (AttrStr response) ∧
    ((500 < String.length answer)%nat →
       String.length response = 500 ∧ ∃ rest, answer = response +:+ rest) ∧
    ((String.length answer ≤ 500)%nat → response = answer).
Proof.
  intros answer attrs. subst attrs. unfold main. fold answer.
  assert (Hcut : ∃ response, response = Py.slice_to 500 answer) by by eexists.
  destruct Hcut as [response Hresponse]. rewrite <- Hresponse.
  repeat split; try reflexivity.
  exists response. split; [reflexivity|]. subst response. split.
  - intros Hlong. split; [|apply slice_to_prefix].
    rewrite slice_to_length. lia.
  - apply slice_to_all.
Qed.

Lemma session_span_attributes_witness :
  let API_CONFIG := {| build_client := λ _, AsyncOpenAI "https://models.inference.ai.azure.com" "t";
                       model_name := "gpt-4o";
                       base_url := "https://models.inference.ai.azure.com";
                       provider := "azure.ai.inference" |} in
  let long := string_of_list_ascii (repeat "a"%char 501) in
  (∃ response,
     attributes (root_span (main API_CONFIG (RunResult (Some long)))) !! "agent.response"
     = Some (AttrStr response) ∧
     String.length response = 500) ∧
  attributes (root_span (main API_CONFIG (RunResult (Some "Go hiking.")))) !! "agent.response"
  = Some (AttrStr "Go hiking.").
Proof.
  intros API_CONFIG long. split.
  - destruct (session_span_attributes API_CONFIG (Some long))
      as (_ & _ & _ & response & Hattr & Hlong & _).
    exists response. split; [exact Hattr|].
    apply Hlong. vm_compute. lia.
  - destruct (session_span_attributes API_CONFIG (Some "Go hiking."))
      as (_ & _ & _ & response & Hattr & _ & Hshort).
    rewrite Hattr. rewrite Hshort; [reflexivity|]. vm_compute. lia.
Defined.

End SessionRunner.

(** ** The weather tool *)

Section Weather.

Import OpenAIAgents.

(** C9. For every city (and date) and every value of the random draw,
    [get_weather] returns, and what it returns is one of two results:
    temperature 72 with description "Sunny", or temperature 60 with
    description "Rainy".  Both occur. *)
Theorem get_weather_two_results (city date : string) (draw : Q) :
  (get_weather city draw
     = <["city" := Str city]> (<["temperature" := Int 72]> {["description" := Str "Sunny"]}) ∨
   get_weather city draw
     = <["city" := Str city]> (<["temperature" := Int 60]> {["description" := Str "Rainy"]})) ∧
  (LangChain.get_weather city date draw
     = <["temperature" := Int 72]> {["description" := Str "Sunny"]} ∨
   LangChain.get_weather city date draw
     = <["temperature" := Int 60]> {["description" := Str "Rainy"]}) ∧
  LangChain.sunny_or_rainy (get_weather city draw) ∧
  LangChain.sunny_or_rainy (LangChain.get_weather city date draw) ∧
  (get_weather city 0 !! "description" = Some (Str "Sunny") ∧
   get_weather city (1 # 2) !! "description" = Some (Str "Rainy") ∧
   LangChain.get_weather city date 0 !! "description" = Some (Str "Sunny") ∧
   LangChain.get_weather city date (1 # 2) !! "description" = Some (Str "Rainy")).
Proof.
  unfold get_weather, LangChain.get_weather.
  unfold LangChain.sunny_or_rainy.
  repeat split; try done; destruct (negb _); auto.
Qed.

End Weather.

(** ** Configuration resolution *)

Section Configuration.

Import OpenAIAgents.





End Configuration.

(** ** More on the Turn Controller *)

Section Runs.

Import LangGraph.

Lemma round_trip_snoc k : round_trip k ++ [agent; action] = round_trip (S k).
Proof.
  induction k as [|k IH]; [done|].
  change (round_trip (S k)) with ([agent; action] ++ round_trip k).
  rewrite <- app_assoc, IH. done.
Qed.

Lemma run_preserves (P : config → Prop) :
  (∀ c c', P c → step c = Next c' → P c') →
  ∀ fuel c, P c → P (outcome_config (run fuel c)).
Proof.
  intros Hstep. induction fuel as [|fuel IH]; intros c HP; simpl; [done|].
  destruct (step c) as [c'| | |e] eqn:Hc; simpl; eauto.
Qed.

Lemma run_stops fuel c :
  match run fuel c with
  | Finished c' => step c' = Done
  | Failed e c' => step c' = Fail e
  | Suspended c' => step c' = Await
  | OutOfFuel _ => True
  end.
Proof.
  revert c. induction fuel as [|fuel IH]; intros c; simpl; [done|].
  destruct (step c) as [c'| | |e] eqn:Hc; simpl; try done. apply IH.
Qed.

Lemma route_Ok st target :
  route st = Ok target →
  ∃ id content calls,
    last (messages st) = Some (AIMessage id content calls) ∧
    target = if Py.truthy calls then action else END.
Proof.
  unfold route, should_continue, last_message.
  destruct (last (messages st)) as [[id content|id content calls|id content name call status]|];
    simpl; try done.
  destruct calls; simpl; intros [= <-]; eauto.
Qed.

Lemma route_Raise st e :
  route st = Raise e →
  (e = IndexError ∧ messages st = []) ∨ e = AttributeError "tool_calls".
Proof.
  unfold route, should_continue, last_message.
  destruct (last (messages st)) as [[id content|id content calls|id content name call status]|]
    eqn:Hlast; simpl.
  - intros [= <-]. by right.
  - by destruct calls.
  - intros [= <-]. by right.
  - intros [= <-]. left. split; [done|]. by apply last_None.
Qed.

Lemma merge_not_nil ms m : merge ms m ≠ [].
Proof.
  unfold merge. destruct (message_id m) as [id|]; [|by destruct ms].
  destruct (last_index id ms) as [k|] eqn:Hk; [|by destruct ms].
  destruct ms as [|m' ms]; [done|]. by destruct k.
Qed.

Lemma coherent_entry history replies : coherent (entry history replies).
Proof. by exists 0. Qed.

Lemma step_coherent c c' : coherent c → step c = Next c' → coherent c'.
Proof.
  destruct c as [n st replies done]. unfold coherent, step; simpl.
  destruct n.
  - intros Hc [= <-]. done.
  - intros [k ->]. destruct replies as [|[id content calls|e] rest]; try done.
    unfold call_model; simpl.
    destruct (route _) as [target|] eqn:Hroute; [|done].
    apply route_Ok in Hroute as (id' & content' & calls' & Hlast & ->).
    destruct calls' as [|call calls']; intros [= <-]; simpl; split; eauto.
  - intros [[k ->] _]. destruct (TOOL_NODE st); [|done].
    intros [= <-]; simpl. exists (S k).
    by rewrite <- app_assoc, <- round_trip_snoc.
  - done.
Qed.

Lemma step_fail c e :
  coherent c → step c = Fail e →
  at_node c = agent ∧
  ((∃ rest, backend c = Failure e :: rest) ∨
   (e = AttributeError "tool_calls" ∧
    ∃ i content calls rest,
      backend c = Reply (Some i) content calls :: rest ∧
      i ∈ thread_ids (messages (state c)))).
Proof.
  destruct c as [n st replies done]. unfold coherent, step; simpl.
  destruct n; try done.
  - intros _. destruct replies as [|[id content calls|e'] rest]; try done.
    + unfold call_model, add_messages; simpl.
      destruct (route _) as [target|e'] eqn:Hroute; [done|].
      intros [= ->]. split; [done|]. right.
      destruct id as [i|].
      * destruct (decide (i ∈ thread_ids (messages st))) as [Hin|Hout].
        -- apply route_Raise in Hroute as [[_ Hnil]| ->].
           ++ by apply merge_not_nil in Hnil.
           ++ split; [done|]. eauto 10.
        -- rewrite merge_fresh in Hroute by (by intros ? [= <-]).
           by rewrite (route_last _ (Some i) content calls) in Hroute by apply last_snoc.
      * rewrite merge_fresh in Hroute by done.
        by rewrite (route_last _ None content calls) in Hroute by apply last_snoc.
    + simpl. intros [= ->]. eauto.
  - intros [_ (id & content & call & calls & Hlast)].
    unfold TOOL_NODE, last_message. by rewrite Hlast.
Qed.

Lemma step_model_calls c c' :
  step c = Next c' →
  visits agent (executed c') + length (backend c')
  = visits agent (executed c) + length (backend c).
Proof.
  unfold step. destruct (at_node c).
  - by intros [= <-].
  - destruct (backend c) as [|reply rest]; [done|].
    destruct (call_model _ _); [|done]. destruct (route _); [|done].
    intros [= <-]; simpl. rewrite visits_app.
    change (visits agent [agent]) with 1. lia.
  - destruct (TOOL_NODE _); [|done]. intros [= <-]; simpl.
    rewrite visits_app. change (visits agent [action]) with 0. lia.
  - done.
Qed.

Lemma step_executed c c' :
  at_node c ≠ START → step c = Next c' →
  at_node c' ≠ START ∧ length (executed c') = S (length (executed c)).
Proof.
  unfold step. destruct (at_node c); try done.
  - intros _. destruct (backend c) as [|reply rest]; [done|].
    destruct (call_model _ _); [|done].
    destruct (route _) as [target|] eqn:Hroute; [|done].
    apply route_Ok in Hroute as (id & content & calls & _ & ->).
    intros [= <-]; simpl. rewrite length_app. simpl.
    split; [by destruct (Py.truthy calls)|lia].
  - intros _. destruct (TOOL_NODE _); [|done]. intros [= <-]; simpl.
    rewrite length_app. simpl. split; [done|lia].
Qed.

Lemma run_out_of_fuel fuel :
  ∀ c c', at_node c ≠ START → run fuel c = OutOfFuel c' →
          length (executed c') = length (executed c) + fuel.
Proof.
  induction fuel as [|fuel IH]; intros c c' Hnode; simpl.
  - intros [= <-]. lia.
  - destruct (step c) as [c1| | |e] eqn:Hstep; try done.
    destruct (step_executed c c1 Hnode Hstep) as [Hnode1 Hlength].
    intros Hrun. rewrite (IH c1 c' Hnode1 Hrun), Hlength. lia.
Qed.

(** X1. [route] fails exactly when [should_continue] does, with the same
    exception: [IndexError] on an empty history, [AttributeError] when the
    last message is not an assistant message.  Every label that
    [should_continue] returns is a key of the path map, so [route] never
    raises [KeyError]. *)
Theorem route_errors (st : MessagesState) :
  (∀ e, route st = Raise e ↔ should_continue st = Raise e) ∧
  (∀ e, should_continue st = Raise e →
     (e = IndexError ∧ messages st = []) ∨
     (e = AttributeError "tool_calls" ∧
      ∃ m, last (messages st) = Some m ∧
           ∀ id content calls, m ≠ AIMessage id content calls)) ∧
  (∀ key, route st ≠ Raise (KeyError key)) ∧
  (∀ label, should_continue st = Ok label → label = "continue" ∨ label = "end").
Proof.
  unfold route, should_continue, last_message.
  destruct (last (messages st)) as [m|] eqn:Hlast; simpl.
  - destruct m as [id content|id content calls|id content name call status]; simpl.
    + repeat split; try done; try (by intros [= <-]).
      intros e [= <-]. right. split; [done|]. by exists (HumanMessage id content).
    + destruct calls; simpl; repeat split; try done; intros label [= <-]; auto.
    + repeat split; try done; try (by intros [= <-]).
      intros e [= <-]. right. split; [done|].
      by exists (ToolMessage id content name call status).
  - apply last_None in Hlast. repeat split; try done; try (by intros [= <-]).
    intros e [= <-]. by left.
Qed.

Lemma route_errors_witness :
  (IndexError = IndexError ∧ messages {| messages := [] |} = []) ∨
  (IndexError = AttributeError "tool_calls" ∧
   ∃ m, last (messages {| messages := [] |}) = Some m ∧
        ∀ id content calls, m ≠ AIMessage id content calls).
Proof.
  destruct (route_errors {| messages := [] |}) as (_ & Herrors & _).
  apply Herrors. reflexivity.
Defined.

(** X2. A run from the entry of the graph fails in one of three ways only:
    with the exception of the pending model call; with
    [GraphRecursionError], after as many steps as the recursion limit
    allows; or with the [AttributeError] of [should_continue], and then the
    reply just taken carried an id that was already in the thread, so that
    it replaced that message instead of coming last.  The tool node does
    not raise along such a run. *)
Theorem run_failures limit history replies e c :
  APP_stream limit history replies = Failed e c →
  (at_node c = agent ∧ ∃ rest, backend c = Failure e :: rest) ∨
  (e = GraphRecursionError ∧ length (executed c) = limit) ∨
  (e = AttributeError "tool_calls" ∧ at_node c = agent ∧
   ∃ i content calls rest,
     backend c = Reply (Some i) content calls :: rest ∧
     i ∈ thread_ids (messages (state c))).
Proof.
  unfold APP_stream.
  pose proof (run_stops (S limit) (entry history replies)) as Hstop.
  pose proof (run_preserves coherent step_coherent (S limit) _
                (coherent_entry history replies)) as Hcoherent.
  destruct (run (S limit) (entry history replies)) as [c'|e' c'|c'|c'] eqn:Hrun;
    try done; intros [= <- <-]; simpl in Hcoherent.
  - destruct (step_fail c' e' Hcoherent Hstop) as [Hnode [Hmodel|[-> Hid]]];
      [by left|]. right; right. done.
  - right; left. split; [done|].
    rewrite run_entry in Hrun. by apply run_out_of_fuel in Hrun.
Qed.

Lemma run_failures_witness :
  let c := {| at_node := agent;
              state := {| messages :=
                [input_message;
                 AIMessage (Some "run-1") "" [spotify_call "call_1" "Shake It Off"];
                 ToolMessage None "Successfully played Shake It Off on Spotify!"
                   "play_song_on_spotify" "call_1" success] |};
              backend := [Reply (Some "run-1") "Now playing Shake It Off." []];
              executed := [agent; action] |} in
  (at_node c = agent ∧
   ∃ rest, backend c = Failure (AttributeError "tool_calls") :: rest) ∨
  (AttributeError "tool_calls" = GraphRecursionError ∧ length (executed c) = 25) ∨
  (AttributeError "tool_calls" = AttributeError "tool_calls" ∧ at_node c = agent ∧
   ∃ i content calls rest,
     backend c = Reply (Some i) content calls :: rest ∧
     i ∈ thread_ids (messages (state c))).
Proof.
  apply (run_failures 25 [input_message]
           [Reply (Some "run-1") "" [spotify_call "call_1" "Shake It Off"];
            Reply (Some "run-1") "Now playing Shake It Off." []]).
  reflexivity.
Defined.

(** X3. A run from the entry that finishes stands at [END] behind an
    assistant message without tool calls, whose content is the final answer;
    it has executed one AGENT step more than ACTION steps. *)
Theorem finished_behind_final_reply fuel history replies c :
  run fuel (entry history replies) = Finished c →
  at_node c = END ∧
  ∃ id content,
    last (messages (state c)) = Some (AIMessage id content []) ∧
    final_answer (state c) = Ok content ∧
    visits agent (executed c) = visits action (executed c) + 1.
Proof.
  intros Hrun.
  pose proof (run_stops fuel (entry history replies)) as Hstop.
  pose proof (run_preserves coherent step_coherent fuel _
                (coherent_entry history replies)) as Hcoherent.
  rewrite Hrun in Hstop, Hcoherent. simpl in Hcoherent.
  assert (at_node c = END) as Hend.
  { unfold step in Hstop. destruct (at_node c); try done.
    - destruct (backend c); [done|]. destruct (call_model _ _); [|done].
      simpl in Hstop. by destruct (route _).
    - by destruct (TOOL_NODE _). }
  split; [done|]. unfold coherent in Hcoherent. rewrite Hend in Hcoherent.
  destruct Hcoherent as [[k Hk] (id & content & Hlast)].
  exists id, content. split; [done|]. split.
  - unfold final_answer, last_message. by rewrite Hlast.
  - rewrite Hk, !visits_app.
    destruct (visits_round_trip k) as [-> ->].
    change (visits agent [agent]) with 1. change (visits action [agent]) with 0. lia.
Qed.

Lemma finished_behind_final_reply_witness :
  ∃ id content,
    last [input_message; AIMessage None "Enjoy!" []] = Some (AIMessage id content []) ∧
    final_answer {| messages := [input_message; AIMessage None "Enjoy!" []] |}
    = Ok content ∧
    visits agent [agent] = visits action [agent] + 1.
Proof.
  apply (finished_behind_final_reply 3 [input_message] [Reply None "Enjoy!" []]
           {| at_node := END;
              state := {| messages := [input_message; AIMessage None "Enjoy!" []] |};
              backend := []; executed := [agent] |}).
  reflexivity.
Defined.

Lemma run_model_calls fuel c :
  visits agent (executed (outcome_config (run fuel c)))
  + length (backend (outcome_config (run fuel c)))
  = visits agent (executed c) + length (backend c).
Proof.
  revert c. induction fuel as [|fuel IH]; intros c; simpl; [done|].
  destruct (step c) as [c1| | |e] eqn:Hstep; simpl; try done.
  rewrite IH. by apply step_model_calls.
Qed.

(** X4. The model is called once per AGENT step: along any run, from any
    configuration, the AGENT steps executed and the replies still pending
    add up to the same number. *)
Theorem one_reply_per_agent_step fuel c :
  let c' := outcome_config (run fuel c) in
  visits agent (executed c') + length (backend c')
  = visits agent (executed c) + length (backend c).
Proof.
  revert c. induction fuel as [|fuel IH]; intros c; simpl; [done|].
  destruct (step c) as [c1| | |e] eqn:Hstep; simpl; try done.
  specialize (IH c1). simpl in IH. rewrite IH.
  destruct (step_model_calls c c1 Hstep). done.
Qed.

(** X5. A run from the entry that is suspended has used up its replies: it
    waits at [agent], nothing is pending, and it has executed as many AGENT
    steps as there were replies and as many ACTION steps. *)
Theorem suspended_after_all_replies fuel history replies c :
  run fuel (entry history replies) = Suspended c →
  at_node c = agent ∧ backend c = [] ∧
  visits agent (executed c) = length replies ∧
  visits action (executed c) = length replies.
Proof.
  intros Hrun.
  pose proof (run_stops fuel (entry history replies)) as Hstop.
  pose proof (run_preserves coherent step_coherent fuel _
                (coherent_entry history replies)) as Hcoherent.
  pose proof (run_model_calls fuel (entry history replies)) as Hcount.
  rewrite Hrun in Hstop, Hcoherent, Hcount. simpl in Hcoherent, Hcount.
  assert (at_node c = agent ∧ backend c = []) as [Hnode Hbackend].
  { unfold step in Hstop. destruct (at_node c); try done.
    - destruct (backend c); [done|]. destruct (call_model _ _); [|done].
      simpl in Hstop. by destruct (route _).
    - by destruct (TOOL_NODE _). }
  unfold coherent in Hcoherent. rewrite Hnode in Hcoherent.
  destruct Hcoherent as [k Hk]. rewrite Hbackend in Hcount. simpl in Hcount.
  rewrite Hk in *. destruct (visits_round_trip k) as [Hagent Haction].
  repeat split; try done; lia.
Qed.

Lemma suspended_after_all_replies_witness :
  let c := {| at_node := agent;
              state := {| messages :=
                [input_message] ++
                transcript [(None, "", [spotify_call "1" "Shake It Off"])] |};
              backend := []; executed := [agent; action] |} in
  at_node c = agent ∧ backend c = [] ∧
  visits agent (executed c) = length [Reply None "" [spotify_call "1" "Shake It Off"]] ∧
  visits action (executed c) = length [Reply None "" [spotify_call "1" "Shake It Off"]].
Proof.
  apply (suspended_after_all_replies 4 [input_message]
           [Reply None "" [spotify_call "1" "Shake It Off"]]).
  reflexivity.
Defined.

(** X6. A failure of the model aborts the run where it occurs: after any
    number of tool-call rounds that bring new ids and leave a step within
    the recursion limit, a failing reply makes the run fail with that very
    exception; the history holds the rounds served and nothing of the
    failed call, and later replies are never asked for. *)
Theorem model_failure_aborts_run rounds e rest history limit :
  Forall (λ round, round.2 ≠ []) rounds →
  fresh_ids history (map reply_of rounds) →
  2 * length rounds < limit →
  APP_stream limit history (map reply_of rounds ++ Failure e :: rest)
  = Failed e {| at_node := agent;
                state := {| messages := history ++ transcript rounds |};
                backend := Failure e :: rest;
                executed := round_trip (length rounds) |}.
Proof.
  intros Hrounds Hfresh Hlimit. unfold APP_stream.
  replace (S limit)
    with (S (2 * length rounds + S (limit - 2 * length rounds - 1))) by lia.
  by rewrite run_entry, run_rounds.
Qed.

Lemma model_failure_aborts_run_witness :
  APP_stream 25 [input_message]
    (map reply_of [(Some "run-1", "", [spotify_call "1" "Shake It Off"])] ++
     Failure (ModelInvocationFailure "unreachable") :: [Reply (Some "run-2") "Enjoy!" []])
  = Failed (ModelInvocationFailure "unreachable")
      {| at_node := agent;
         state := {| messages :=
           [input_message] ++
           transcript [(Some "run-1", "", [spotify_call "1" "Shake It Off"])] |};
         backend := Failure (ModelInvocationFailure "unreachable")
                    :: [Reply (Some "run-2") "Enjoy!" []];
         executed := round_trip 1 |}.
Proof.
  apply (model_failure_aborts_run
           [(Some "run-1", "", [spotify_call "1" "Shake It Off"])]
           (ModelInvocationFailure "unreachable")
           [Reply (Some "run-2") "Enjoy!" []] [input_message] 25).
  - repeat constructor; discriminate.
  - apply (bool_decide_unpack _). by vm_compute.
  - simpl. lia.
Defined.

(** X7. Along every run from the entry, whatever the replies and however
    far it gets, AGENT and ACTION steps alternate, starting with AGENT: the
    executed nodes are k rounds of [agent; action], possibly followed by one
    more [agent]. *)
Theorem steps_alternate fuel history replies :
  let c := outcome_config (run fuel (entry history replies)) in
  ∃ k, (executed c = round_trip k ∧ visits agent (executed c) = visits action (executed c)) ∨
       (executed c = round_trip k ++ [agent] ∧
        visits agent (executed c) = visits action (executed c) + 1).
Proof.
  pose proof (run_preserves coherent step_coherent fuel _
                (coherent_entry history replies)) as Hcoherent.
  simpl. revert Hcoherent. generalize (outcome_config (run fuel (entry history replies))).
  intros c. unfold coherent.
  destruct (at_node c).
  - intros [k Hk]. exists k. left. rewrite Hk.
    by destruct (visits_round_trip k) as [-> ->].
  - intros [k Hk]. exists k. left. rewrite Hk.
    by destruct (visits_round_trip k) as [-> ->].
  - intros [[k Hk] _]. exists k. right. rewrite Hk, !visits_app.
    destruct (visits_round_trip k) as [-> ->].
    change (visits agent [agent]) with 1. change (visits action [agent]) with 0.
    split; [done|lia].
  - intros [[k Hk] _]. exists k. right. rewrite Hk, !visits_app.
    destruct (visits_round_trip k) as [-> ->].
    change (visits agent [agent]) with 1. change (visits action [agent]) with 0.
    split; [done|lia].
Qed.






End Runs.

(** ** Capture settings (1-OpenAIAgents/weekend_planner.py) *)

Section CaptureEnv.

Import OpenAIAgents.

Lemma setdefault_lookup key value (env : gmap string string) k :
  Py.setdefault key value env !! k
  = match env !! k with
    | Some v => Some v
    | None => if decide (key = k) then Some value else None
    end.
Proof.
  unfold Py.setdefault. destruct (env !! key) eqn:Hkey.
  - destruct (env !! k) eqn:Hk; [done|]. case_decide; [subst; congruence|done].
  - destruct (decide (key = k)) as [->|Hne].
    + by rewrite lookup_insert_eq, Hkey.
    + rewrite lookup_insert_ne by done. by destruct (env !! k).
Qed.

Lemma setdefaults_lookup (items : list (string * string)) :
  ∀ (env : gmap string string) k,
    foldl (λ env item, Py.setdefault item.1 item.2 env) env items !! k
    = match env !! k with
      | Some v => Some v
      | None => LangGraph.assoc k items
      end.
Proof.
  induction items as [|[key value] items IH]; intros env k; simpl.
  - by destruct (env !! k).
  - rewrite IH, setdefault_lookup. destruct (env !! k); [done|].
    case_decide as Hkey.
    + subst. by rewrite String.eqb_refl.
    + apply String.eqb_neq in Hkey. by rewrite Hkey.
Qed.

Lemma set_capture_env_fold urlparse provider base_url (env : gmap string string) :
  _set_capture_env urlparse provider base_url env
  = foldl (λ env item, Py.setdefault item.1 item.2 env) env
          (capture_defaults env provider ++ server_defaults (urlparse base_url)).
Proof.
  unfold _set_capture_env, server_defaults. rewrite foldl_app.
  generalize (foldl (λ env item, Py.setdefault item.1 item.2 env) env
                (capture_defaults env provider)).
  intros env'.
  destruct (urlparse base_url) as [parsed|e]; [|done].
  destruct (port parsed) as [[[|n]|]|e];
    try generalize (Py.str_nat (S n)); intros;
    destruct (hostname parsed) as [[|c rest]|]; reflexivity.
Qed.

Lemma set_capture_env_lookup urlparse provider base_url (env : gmap string string) k :
  _set_capture_env urlparse provider base_url env !! k
  = match env !! k with
    | Some v => Some v
    | None =>
        LangGraph.assoc k (capture_defaults env provider ++
                           server_defaults (urlparse base_url))
    end.
Proof. by rewrite set_capture_env_fold, setdefaults_lookup. Qed.

(** X8. [_set_capture_env] only adds settings: every variable that is set
    keeps its value, none is removed. *)
Theorem capture_env_keeps_settings urlparse provider base_url
    (env : gmap string string) :
  env ⊆ _set_capture_env urlparse provider base_url env.
Proof.
  apply map_subseteq_spec. intros k v Hk.
  by rewrite set_capture_env_lookup, Hk.
Qed.

(** X9. After [_set_capture_env], each of the ten capture settings, the
    server address of a URL with a host name and the server port of a URL
    with a port other than zero are set: to the value the variable had, or
    else to the default of the code (the provider for
    [OTEL_GENAI_PROVIDER_NAME]). *)
Theorem capture_env_defaults urlparse provider base_url
    (env : gmap string string) key value :
  (key, value) ∈ capture_defaults env provider ++ server_defaults (urlparse base_url) →
  _set_capture_env urlparse provider base_url env !! key
  = Some (Py.getenv env key value).
Proof.
  rewrite set_capture_env_lookup. unfold Py.getenv, server_defaults.
  intros Hitem. apply elem_of_app in Hitem as [Hitem|Hitem].
  - unfold capture_defaults in Hitem.
    repeat (apply elem_of_cons in Hitem as [[= -> ->]|Hitem];
            [by destruct (env !! _)|]).
    by apply elem_of_nil in Hitem.
  - destruct (urlparse base_url) as [parsed|e]; [|by apply elem_of_nil in Hitem].
    destruct (hostname parsed) as [[|c rest]|];
      destruct (port parsed) as [[[|n]|]|e]; simpl in Hitem;
      repeat (apply elem_of_cons in Hitem as [[= -> ->]|Hitem];
              [by destruct (env !! _)|]);
      by apply elem_of_nil in Hitem.
Qed.

Lemma capture_env_defaults_witness :
  _set_capture_env (λ _, Ok {| hostname := Some "models.inference.ai.azure.com"; port := Ok None |})
    "azure.ai.inference" "https://models.inference.ai.azure.com"
    {["OTEL_GENAI_CAPTURE_MESSAGES" := "false"]}
    !! "OTEL_GENAI_PROVIDER_NAME"
  = Some (Py.getenv {["OTEL_GENAI_CAPTURE_MESSAGES" := "false"]}
            "OTEL_GENAI_PROVIDER_NAME" "azure.ai.inference").
Proof.
  apply (capture_env_defaults
           (λ _, Ok {| hostname := Some "models.inference.ai.azure.com"; port := Ok None |})
           "azure.ai.inference" "https://models.inference.ai.azure.com"
           {["OTEL_GENAI_CAPTURE_MESSAGES" := "false"]}
           "OTEL_GENAI_PROVIDER_NAME" "azure.ai.inference").
  vm_compute. set_solver.
Defined.

Lemma assoc_None {V} k (items : list (string * V)) :
  LangGraph.assoc k items = None ↔ k ∉ items.*1.
Proof.
  induction items as [|[key value] items IH]; simpl.
  - split; [intros _; apply not_elem_of_nil|done].
  - rewrite not_elem_of_cons, <- IH.
    destruct (String.eqb_spec key k) as [->|Hne].
    + split; [done|]. by intros [? _].
    + split; [|by intros [_ ?]]. intros Hnone. split; [congruence|done].
Qed.

Lemma set_capture_env_untouched urlparse provider base_url
    (env : gmap string string) k :
  k ∉ (capture_defaults env provider ++ server_defaults (urlparse base_url)).*1 →
  _set_capture_env urlparse provider base_url env !! k = env !! k.
Proof.
  intros Hk. rewrite set_capture_env_lookup.
  destruct (env !! k); [done|]. by apply assoc_None.
Qed.

(** X10. No variable outside the defaults is touched: a key that is not
    among the capture settings or the server settings derived from the URL
    reads after [_set_capture_env] as it did before.  So a URL without a
    host name leaves [OTEL_GENAI_SERVER_ADDRESS] alone, and one without a
    port, or with port zero, leaves [OTEL_GENAI_SERVER_PORT] alone. *)
Theorem capture_env_touches_only_defaults urlparse provider base_url
    (env : gmap string string) k :
  k ∉ (capture_defaults env provider ++ server_defaults (urlparse base_url)).*1 →
  _set_capture_env urlparse provider base_url env !! k = env !! k.
Proof.
  intros Hk. rewrite set_capture_env_fold, setdefaults_lookup.
  destruct (env !! k) as [v|] eqn:Henv; [done|].
  apply assoc_None. exact Hk.
Qed.

Lemma capture_env_touches_only_defaults_witness :
  _set_capture_env (λ _, Ok {| hostname := Some ""; port := Ok (Some 0) |})
    "azure.ai.openai" "http://:0" ∅ !! "OTEL_GENAI_SERVER_PORT"
  = (∅ : gmap string string) !! "OTEL_GENAI_SERVER_PORT".
Proof.
  apply (capture_env_touches_only_defaults
           (λ _, Ok {| hostname := Some ""; port := Ok (Some 0) |})
           "azure.ai.openai" "http://:0" ∅ "OTEL_GENAI_SERVER_PORT").
  simpl. intros Hk.
  repeat (apply elem_of_cons in Hk as [Hk|Hk]; [discriminate|]).
  by apply elem_of_nil in Hk.
Defined.

(** X11. [_set_capture_env] is idempotent, and what it has set stays: a
    second call for the same URL changes nothing, not even with another
    provider name. *)
Theorem capture_env_second_call urlparse provider provider' base_url
    (env : gmap string string) :
  _set_capture_env urlparse provider' base_url
    (_set_capture_env urlparse provider base_url env)
  = _set_capture_env urlparse provider base_url env.
Proof.
  apply map_eq. intros k.
  rewrite (set_capture_env_lookup urlparse provider').
  destruct (_set_capture_env urlparse provider base_url env !! k) eqn:Hfirst; [done|].
  apply assoc_None. intros Hk.
  rewrite set_capture_env_lookup in Hfirst.
  destruct (env !! k); [done|]. apply assoc_None in Hfirst.
  apply Hfirst. rewrite fmap_app in *. exact Hk.
Qed.

(** X12. Which exporter [_configure_tracer] installs does not depend on the
    capture settings: configuring the tracer after [_set_capture_env] gives
    the same provider and prints the same line as configuring it before. *)
Theorem configure_tracer_after_capture_env urlparse rejects provider base_url
    azure_monitor (env : gmap string string) :
  _configure_tracer rejects azure_monitor
    (_set_capture_env urlparse provider base_url env)
  = _configure_tracer rejects azure_monitor env.
Proof.
  unfold _configure_tracer, Py.getenv, Py.environ_get.
  rewrite !set_capture_env_untouched; [done| |];
    unfold server_defaults;
    (destruct (urlparse base_url) as [parsed|e];
     [destruct (hostname parsed) as [[|c rest]|];
      destruct (port parsed) as [[[|n]|]|e]|]); simpl;
    intros Hk; repeat (apply elem_of_cons in Hk as [Hk|Hk]; [done|]);
    by apply elem_of_nil in Hk.
Qed.


End CaptureEnv.

(** ** More on configuration, tracer and session *)

Section Resolution.

Import OpenAIAgents.

Lemma rstrip_slash_no_trailing s : Py.endswith_slash (Py.rstrip_slash s) = false.
Proof.
  induction s as [|c s IH]; [done|]. simpl.
  destruct (Py.rstrip_slash s) as [|c' kept].
  - destruct (Ascii.eqb c "/") eqn:Hc; [done|]. simpl. exact Hc.
  - exact IH.
Qed.

Lemma rstrip_slash_slashes s : ∃ n, s = Py.rstrip_slash s +:+ Py.slashes n.
Proof.
  induction s as [|c s [n IH]]; [by exists 0|]. simpl.
  destruct (Py.rstrip_slash s) as [|c' kept].
  - change (s = Py.slashes n) in IH.
    destruct (Ascii.eqb_spec c "/") as [->|_].
    + exists (S n). change (String "/" s = String "/" (Py.slashes n)). congruence.
    + exists n. change (String c s = String c (Py.slashes n)). congruence.
  - exists n.
    change (String c s = String c (String c' kept +:+ Py.slashes n)). congruence.
Qed.

(** X14. The [base_url] of a resolved configuration never ends with a
    slash; it is the configured URL (the GitHub base URL or its default, or
    the Azure endpoint) without its trailing slashes, and it is the URL the
    client is built with. *)
Theorem resolved_base_url (env : gmap string string) cfg :
  _resolve_api_config env = Ok cfg →
  Py.endswith_slash (base_url cfg) = false ∧
  (∃ raw n,
     raw = base_url cfg +:+ Py.slashes n ∧
     (raw = Py.getenv env "GITHUB_OPENAI_BASE_URL" "https://models.inference.ai.azure.com" ∨
      env !! "AZURE_OPENAI_ENDPOINT" = Some raw)) ∧
  match build_client cfg () with
  | AsyncOpenAI url _ => url = base_url cfg
  | AsyncAzureOpenAI _ endpoint _ => endpoint = base_url cfg
  end.
Proof.
  unfold _resolve_api_config, Py.environ_item.
  destruct (String.eqb _ "github").
  - destruct (env !! "GITHUB_TOKEN"); simpl; [|done]. intros [= <-]; simpl.
    split; [apply rstrip_slash_no_trailing|]. split; [|done].
    destruct (rstrip_slash_slashes
                (Py.getenv env "GITHUB_OPENAI_BASE_URL"
                   "https://models.inference.ai.azure.com")) as [n Hn].
    eexists _, n. split; [exact Hn|]. by left.
  - destruct (String.eqb _ "azure"); [|done].
    destruct (env !! "AZURE_OPENAI_ENDPOINT") as [endpoint|] eqn:Hendpoint; simpl; [|done].
    destruct (env !! "AZURE_OPENAI_VERSION"); simpl; [|done].
    destruct (env !! "AZURE_OPENAI_CHAT_DEPLOYMENT"); simpl; [|done].
    intros [= <-]; simpl.
    split; [apply rstrip_slash_no_trailing|]. split; [|done].
    destruct (rstrip_slash_slashes endpoint) as [n Hn].
    exists endpoint, n. split; [exact Hn|]. by right.
Qed.

Lemma resolved_base_url_witness :
  let env : gmap string string :=
    {["API_HOST" := "azure"; "AZURE_OPENAI_ENDPOINT" := "https://example.test//";
      "AZURE_OPENAI_VERSION" := "2024-06-01"; "AZURE_OPENAI_CHAT_DEPLOYMENT" := "gpt-4o"]} in
  match _resolve_api_config env with
  | Ok cfg =>
      Py.endswith_slash (base_url cfg) = false ∧
      (∃ raw n,
         raw = base_url cfg +:+ Py.slashes n ∧
         (raw = Py.getenv env "GITHUB_OPENAI_BASE_URL" "https://models.inference.ai.azure.com" ∨
          env !! "AZURE_OPENAI_ENDPOINT" = Some raw)) ∧
      match build_client cfg () with
      | AsyncOpenAI url _ => url = base_url cfg
      | AsyncAzureOpenAI _ endpoint _ => endpoint = base_url cfg
      end
  | Raise _ => False
  end.
Proof.
  intros env.
  destruct (_resolve_api_config env) as [cfg|e] eqn:Hcfg.
  - exact (resolved_base_url env cfg Hcfg).
  - discriminate Hcfg.
Defined.



(** X16. On a host they both accept, the two resolvers read the same
    settings.  When [_resolve_api_config] returns a configuration,
    [_build_model] calls the model class of the same host, and the settings
    it hands over are those of the configuration: the model (or deployment)
    is the one the configuration names, the configuration's [base_url] is
    the model's URL (or endpoint) without trailing slashes, and its client
    carries the same token (or API version).  Whether the class accepts the
    settings is the library's matter; a configuration may be returned where
    the class rejects them, as with an empty [GITHUB_TOKEN]. *)
Theorem resolvers_agree (env : gmap string string) cfg :
  _resolve_api_config env = Ok cfg →
  ∃ instance,
    (∀ validate,
       LangGraph._build_model validate env = LangGraph.construct validate env instance) ∧
    match instance with
    | LangGraph.ChatOpenAI model url api_key =>
        model_name cfg = model ∧ base_url cfg = Py.rstrip_slash url ∧
        provider cfg = "azure.ai.inference" ∧
        ∃ token, api_key = Some token ∧
                 build_client cfg () = AsyncOpenAI (Py.rstrip_slash url) token
    | LangGraph.AzureChatOpenAI endpoint deployment version
        (LangGraph.bearer_token_provider scope) =>
        deployment = Some (model_name cfg) ∧
        provider cfg = "azure.ai.openai" ∧
        ∃ raw api_version,
          endpoint = Some raw ∧ version = Some api_version ∧
          base_url cfg = Py.rstrip_slash raw ∧
          build_client cfg ()
          = AsyncAzureOpenAI api_version (Py.rstrip_slash raw) (bearer_token_provider scope)
    end.
Proof.
  unfold _resolve_api_config, LangGraph._build_model, Py.environ_item, Py.environ_get.
  generalize (Py.lower (Py.getenv env "API_HOST" "github")). intros host.
  destruct (String.eqb_spec host "github") as [->|Hgithub]; simpl.
  - destruct (env !! "GITHUB_TOKEN") as [token|]; simpl; [|done]. intros [= <-].
    eexists. split; [done|]. simpl. eauto 10.
  - destruct (String.eqb_spec host "azure") as [->|Hazure]; simpl; [|done].
    destruct (env !! "AZURE_OPENAI_ENDPOINT"); simpl; [|done].
    destruct (env !! "AZURE_OPENAI_VERSION"); simpl; [|done].
    destruct (env !! "AZURE_OPENAI_CHAT_DEPLOYMENT"); simpl; [|done].
    intros [= <-]. eexists. split; [done|]. simpl. eauto 10.
Qed.

Lemma resolvers_agree_witness :
  let env : gmap string string :=
    {["GITHUB_TOKEN" := "t"; "GITHUB_OPENAI_BASE_URL" := "https://example.test/v1/"]} in
  match _resolve_api_config env with
  | Ok cfg =>
      ∃ instance,
        (∀ validate,
           LangGraph._build_model validate env
           = LangGraph.construct validate env instance) ∧
        match instance with
        | LangGraph.ChatOpenAI model url api_key =>
            model_name cfg = model ∧ base_url cfg = Py.rstrip_slash url ∧
            provider cfg = "azure.ai.inference" ∧
            ∃ token, api_key = Some token ∧
                     build_client cfg () = AsyncOpenAI (Py.rstrip_slash url) token
        | LangGraph.AzureChatOpenAI endpoint deployment version
            (LangGraph.bearer_token_provider scope) =>
            deployment = Some (model_name cfg) ∧
            provider cfg = "azure.ai.openai" ∧
            ∃ raw api_version,
              endpoint = Some raw ∧ version = Some api_version ∧
              base_url cfg = Py.rstrip_slash raw ∧
              build_client cfg ()
              = AsyncAzureOpenAI api_version (Py.rstrip_slash raw)
                  (bearer_token_provider scope)
        end
  | Raise _ => False
  end.
Proof.
  intros env.
  destruct (_resolve_api_config env) as [cfg|e] eqn:Hcfg.
  - exact (resolvers_agree env cfg Hcfg).
  - discriminate Hcfg.
Defined.

(** With an empty [GITHUB_TOKEN] a configuration is returned, while a model
    class that wants a credential that is not empty rejects the settings. *)
Example empty_token :
  let env : gmap string string := {["GITHUB_TOKEN" := ""]} in
  let validate : LangGraph.validation :=
    λ _ instance,
      match instance with
      | LangGraph.ChatOpenAI _ _ (Some (String _ _)) => None
      | LangGraph.ChatOpenAI _ _ _ =>
          Some (LibraryError "OpenAIError" "The api_key client option must be set")
      | _ => None
      end in
  (∃ cfg, _resolve_api_config env = Ok cfg ∧
          build_client cfg () = AsyncOpenAI "https://models.inference.ai.azure.com" "") ∧
  LangGraph._build_model validate env
  = Raise (LibraryError "OpenAIError" "The api_key client option must be set").
Proof. split; [by eexists|reflexivity]. Qed.

End Resolution.

Section TracerAndSession.

Import OpenAIAgents.

(** X17. Content recording is on exactly when [OTEL_RECORD_CONTENT] is unset
    or reads "true" in some letter case; any other value, the empty one
    included, turns it off.  The tracers of music_router.py and of the
    LangChain planner are built from the same two settings. *)
Theorem content_recording_flag (env : gmap string string) :
  (LangGraph.enable_content_recording (LangGraph.TRACER env) = true ↔
   env !! "OTEL_RECORD_CONTENT" = None ∨
   ∃ v, env !! "OTEL_RECORD_CONTENT" = Some v ∧ Py.lower v = "true") ∧
  LangGraph.enable_content_recording (LangChain.TRACER env)
  = LangGraph.enable_content_recording (LangGraph.TRACER env) ∧
  LangGraph.connection_string (LangChain.TRACER env)
  = LangGraph.connection_string (LangGraph.TRACER env) ∧
  LangGraph.connection_string (LangGraph.TRACER env)
  = env !! "APPLICATION_INSIGHTS_CONNECTION_STRING".
Proof.
  repeat split; try done; simpl; unfold Py.getenv.
  - destruct (env !! "OTEL_RECORD_CONTENT") as [v|]; [|by left].
    intros Htrue%String.eqb_eq. right. eauto.
  - intros [->|(v & -> & Hv)]; [done|]. by apply String.eqb_eq.
Qed.

Example content_recording_examples :
  LangGraph.enable_content_recording (LangGraph.TRACER {["OTEL_RECORD_CONTENT" := "TRUE"]}) = true ∧
  LangGraph.enable_content_recording (LangGraph.TRACER {["OTEL_RECORD_CONTENT" := "1"]}) = false ∧
  LangGraph.enable_content_recording (LangGraph.TRACER {["OTEL_RECORD_CONTENT" := ""]}) = false.
Proof. done. Qed.

(** X18. What the root span holds tells how the session went.  The span is
    named after the provider and always carries provider, model and target
    city.  [agent.response] is there exactly when the run returned, an
    exception is recorded exactly when the run raised an [Exception],
    [request.success] is missing exactly when a [BaseException] that is no
    [Exception] passed through, and the answer is printed exactly when the
    run returned. *)
Theorem session_span_by_outcome (API_CONFIG : _ApiConfig) runner :
  let r := main API_CONFIG runner in
  let attrs := attributes (root_span r) in
  span_name (root_span r) = _root_span_name (provider API_CONFIG) ∧
  attrs !! "gen_ai.provider.name" = Some (AttrStr (provider API_CONFIG)) ∧
  attrs !! "gen_ai.request.model" = Some (AttrStr (model_name API_CONFIG)) ∧
  attrs !! "target.city" = Some (AttrStr "Seattle") ∧
  (is_Some (attrs !! "agent.response") ↔ ∃ final_output, runner = RunResult final_output) ∧
  (exceptions (root_span r) ≠ [] ↔ ∃ exc, runner = RunRaises (Exc exc)) ∧
  (attrs !! "request.success" = None ↔ ∃ s, runner = RunRaises (BaseExc s)) ∧
  (stdout r ≠ [] ↔ ∃ final_output, runner = RunResult final_output).
Proof.
  destruct runner as [final_output|[exc|s]]; simpl.
  - generalize (Py.slice_to 500 (or_empty final_output)). intros response.
    repeat split; try done; eauto; try by intros [? ?].
  - repeat split; try done; eauto; by intros [? ?].
  - repeat split; try done; eauto; by intros [? ?].
Qed.

Lemma append_inj_l (prefix s1 s2 : string) : prefix +:+ s1 = prefix +:+ s2 → s1 = s2.
Proof.
  induction prefix as [|c prefix IH]; [done|].
  intros Heq. apply IH.
  change (String c (prefix +:+ s1) = String c (prefix +:+ s2)) in Heq. congruence.
Qed.

Lemma length_append (s1 s2 : string) :
  String.length (s1 +:+ s2) = String.length s1 + String.length s2.
Proof.
  induction s1 as [|c s1 IH]; [done|].
  change (S (String.length (s1 +:+ s2)) = S (String.length s1 + String.length s2)).
  by rewrite IH.
Qed.

Lemma append_inj_r (s1 s2 suffix : string) : s1 +:+ suffix = s2 +:+ suffix → s1 = s2.
Proof.
  revert s2. induction s1 as [|c1 s1 IH]; intros [|c2 s2] Heq; [done| | |].
  - apply (f_equal String.length) in Heq.
    change (String c2 s2 +:+ suffix) with (String c2 (s2 +:+ suffix)) in Heq.
    change ("" +:+ suffix) with suffix in Heq.
    simpl in Heq. rewrite length_append in Heq. lia.
  - apply (f_equal String.length) in Heq.
    change (String c1 s1 +:+ suffix) with (String c1 (s1 +:+ suffix)) in Heq.
    change ("" +:+ suffix) with suffix in Heq.
    simpl in Heq. rewrite length_append in Heq. lia.
  - change (String c1 (s1 +:+ suffix) = String c2 (s2 +:+ suffix)) in Heq.
    injection Heq as -> Heq. f_equal. by apply IH.
Qed.

(** X19. Root span names tell providers apart: two providers with the same
    [_root_span_name] are the same provider. *)
Theorem root_span_name_inj (provider1 provider2 : string) :
  _root_span_name provider1 = _root_span_name provider2 → provider1 = provider2.
Proof.
  unfold _root_span_name. intros Heq.
  apply append_inj_l in Heq. by apply append_inj_r in Heq.
Qed.

Lemma root_span_name_inj_witness : "azure.ai.openai" = "azure.ai.openai".
Proof. apply (root_span_name_inj "azure.ai.openai" "azure.ai.openai"). reflexivity. Defined.

(** X20. The tools of the two weekend planners agree.  [get_activities]
    returns the same three activities in both files, each located in the
    city asked for, whatever the date.  [get_weather] of the OpenAI Agents
    planner is the LangChain planner's report with the city added, which
    the LangChain report itself does not carry. *)
Theorem planner_tools_agree (city date date' : string) (draw : Q) :
  get_activities city date = LangChain.get_activities city date' ∧
  length (get_activities city date) = 3 ∧
  Forall (λ activity, activity !! "location" = Some (Str city)) (get_activities city date) ∧
  get_weather city draw = <["city" := Str city]> (LangChain.get_weather city date draw) ∧
  LangChain.get_weather city date draw !! "city" = None ∧
  get_weather city draw !! "city" = Some (Str city).
Proof.
  unfold get_weather, LangChain.get_weather.
  repeat split; try done.
  - repeat constructor.
  - by destruct (negb _).
  - by destruct (negb _).
  - by destruct (negb _).
Qed.

(** X23. The status of the root span tells a failure from the rest.  When
    the run raises an [Exception], the span ends with status error for this
    exception, which is recorded twice: once by the handler of [main], once
    more when the exception leaves the [with] block.  When the run returns,
    or a [BaseException] that is no [Exception] passes through, the status
    stays unset and no exception is recorded. *)
Theorem span_status_by_outcome (API_CONFIG : _ApiConfig) runner :
  let span := root_span (main API_CONFIG runner) in
  (∀ exc, runner = RunRaises (Exc exc) →
     status span = Error exc ∧ exceptions span = [exc; exc]) ∧
  ((∀ exc, runner ≠ RunRaises (Exc exc)) →
     status span = Unset ∧ exceptions span = []) ∧
  (status span = Unset ↔ exceptions span = []) ∧
  end_calls span = 1.
Proof.
  destruct runner as [final_output|[exc|s]]; simpl.
  - generalize (Py.slice_to 500 (or_empty final_output)). intros response.
    repeat split; try done.
  - split; [|split; [|split]]; try done.
    + by intros exc' [= <-].
    + intros Hnot. by destruct (Hnot exc).
  - repeat split; try done.
Qed.

Lemma span_status_by_outcome_witness :
  let span :=
    root_span
      (main {| build_client := λ _, AsyncOpenAI "u" "t"; model_name := "gpt-4o";
               base_url := "u"; provider := "azure.ai.inference" |}
            (RunRaises (Exc (ModelInvocationFailure "unreachable")))) in
  status span = Error (ModelInvocationFailure "unreachable") ∧
  exceptions span
  = [ModelInvocationFailure "unreachable"; ModelInvocationFailure "unreachable"].
Proof.
  intros span.
  destruct (span_status_by_outcome
              {| build_client := λ _, AsyncOpenAI "u" "t"; model_name := "gpt-4o";
                 base_url := "u"; provider := "azure.ai.inference" |}
              (RunRaises (Exc (ModelInvocationFailure "unreachable"))))
    as [Hraised _].
  apply Hraised. reflexivity.
Defined.

End TracerAndSession.

(** ** The playback tools (music_router.py) *)

Section Playback.

Import LangGraph.

Lemma common_suffix (s1 s2 a b : string) :
  s1 +:+ a = s2 +:+ b → (String.length a ≤ String.length b)%nat →
  ∃ p, b = p +:+ a.
Proof.
  revert s2. induction s1 as [|c1 s1 IH]; intros [|c2 s2] Heq Hlen.
  - exists EmptyString. by symmetry.
  - apply (f_equal String.length) in Heq. rewrite !length_append in Heq.
    simpl in Heq. lia.
  - exists (String c1 s1). by symmetry.
  - change (String c1 (s1 +:+ a) = String c2 (s2 +:+ b)) in Heq.
    injection Heq as _ Heq. by apply (IH s2).
Qed.

(** X21. The message a playback tool returns identifies the song and the
    service: each tool returns different messages for different songs, and
    no message of the Spotify tool is a message of the Apple Music tool. *)
Theorem playback_messages (song1 song2 : string) :
  (play_song_on_spotify song1 = play_song_on_spotify song2 → song1 = song2) ∧
  (play_song_on_apple song1 = play_song_on_apple song2 → song1 = song2) ∧
  play_song_on_spotify song1 ≠ play_song_on_apple song2.
Proof.
  unfold play_song_on_spotify, play_song_on_apple.
  split; [|split].
  - intros Heq%append_inj_l. by apply append_inj_r in Heq.
  - intros Heq%append_inj_l. by apply append_inj_r in Heq.
  - intros Heq%append_inj_l.
    destruct (common_suffix _ _ _ _ Heq) as [p Hp]; [simpl; lia|].
    apply (f_equal String.length) in Hp as Hlen. rewrite length_append in Hlen.
    simpl in Hlen.
    destruct p as [|c1 [|c2 [|c3 [|c4 [|c5 p]]]]]; simpl in Hlen; try lia.
    discriminate Hp.
Qed.

Lemma playback_messages_witness : "Shake It Off" = "Shake It Off".
Proof.
  destruct (playback_messages "Shake It Off" "Shake It Off") as [Hspotify _].
  apply Hspotify. reflexivity.
Defined.

End Playback.
